(** * Rural health clinic roster parser: the line classifier, the record
      extractor and the page scan of [parse_rhc_roster.py]

    Text is a list of characters.  A character is a code point below 256
    (the type [ascii]); on that range Python's [str.strip], [\s], [\d], [.]
    and [[A-Z]] are the predicates of [Module Text] below. *)

From Stdlib Require Import Ascii String.
From Stdlib Require Import List Arith Bool Lia.
Import Datatypes ListNotations.

Local Open Scope list_scope.

(** ** Text: Python [str] values and the methods the parser calls *)

Module Text.

Definition str := list ascii.

(** A string literal of the source. *)
Definition txt (s : string) : str := list_ascii_of_string s.

Definition newline : ascii := "010"%char.
Definition tab : ascii := "009"%char.

Definition code (c : ascii) : nat := nat_of_ascii c.

(** [c.isspace()], which is also the class [\s]: TAB, LF, VT, FF, CR, the
    separators FS, GS, RS, US, the space, NEL and the no-break space. *)
Definition isspace (c : ascii) : bool :=
  let n := code c in
  ((9 <=? n) && (n <=? 13)) || ((28 <=? n) && (n <=? 32))
  || (n =? 133) || (n =? 160).

(** The class [\d]. *)
Definition isdigit (c : ascii) : bool :=
  let n := code c in (48 <=? n) && (n <=? 57).

(** The class [[A-Z]]. *)
Definition isupper (c : ascii) : bool :=
  let n := code c in (65 <=? n) && (n <=? 90).

(** The class [.]: everything but the line feed. *)
Definition notnewline (c : ascii) : bool := negb (Ascii.eqb c newline).

Fixpoint lstrip (s : str) : str :=
  match s with
  | c :: s' => if isspace c then lstrip s' else s
  | [] => []
  end.

Definition rstrip (s : str) : str := rev (lstrip (rev s)).

(** [s.strip()] *)
Definition strip (s : str) : str := rstrip (lstrip s).

(** [s.startswith(p)] *)
Fixpoint startswith (s p : str) {struct p} : bool :=
  match p, s with
  | [], _ => true
  | a :: p', b :: s' => Ascii.eqb a b && startswith s' p'
  | _ :: _, [] => false
  end.

(** Truth value of a string: [if s:] *)
Definition nonempty (s : str) : bool :=
  match s with [] => false | _ :: _ => true end.

(** [text.split(sep)] for a one-character separator: [cur] holds the
    characters of the piece being read. *)
Fixpoint split_acc (sep : ascii) (cur : str) (s : str) : list str :=
  match s with
  | [] => [cur]
  | c :: s' =>
      if Ascii.eqb c sep then cur :: split_acc sep [] s'
      else split_acc sep (cur ++ [c]) s'
  end.

Definition split (sep : ascii) (s : str) : list str := split_acc sep [] s.

End Text.

Import Text.

(** ** Re: the fragment of Python's [re] the parser uses

    A pattern is a sequence of nodes.  The matcher is the backtracking
    search of [re] written as a list of successes: [exec p st] lists the
    states in which [p] can finish from [st], in the order in which the
    engine tries them, so [re.match] is the head of that list.  A greedy
    repetition offers the longest run first, a lazy one the shortest. *)

Module Re.

Inductive node : Type :=
| Bol                                              (* ^ *)
| Eol                                              (* $ *)
| Lit (c : ascii)                                  (* a literal character *)
| One (cls : ascii -> bool)                        (* a class, once *)
| Rep (cls : ascii -> bool) (lo : nat) (hi : option nat) (greedy : bool)
                                                   (* cls{lo,hi}, cls{lo,hi}? *)
| Open (g : nat)                                   (* ( of group g *)
| Close (g : nat).                                 (* ) of group g *)

Definition pattern := list node.

(** Shorthands for the quantifiers of the source. *)
Definition plus (cls : ascii -> bool) : node := Rep cls 1 None true.      (* + *)
Definition star (cls : ascii -> bool) : node := Rep cls 0 None true.      (* * *)
Definition opt (cls : ascii -> bool) : node := Rep cls 0 (Some 1) true.   (* ? *)
Definition times (n : nat) (cls : ascii -> bool) : node :=
  Rep cls n (Some n) true.                                                (* {n} *)
Definition plus_lazy (cls : ascii -> bool) : node := Rep cls 1 None false. (* +? *)

Definition lits (s : string) : pattern := map Lit (txt s).

(** A matcher state: the position, the text still to read, the text that
    was still to read when each open group started, and the groups closed
    so far (the latest first). *)
Record state : Type := mkState {
  pos : nat;
  rest : str;
  marks : list (nat * str);
  caps : list (nat * str)
}.

Definition start (p : nat) (s : str) : state := mkState p s [] [].

Definition advance (k : nat) (st : state) : state :=
  mkState (pos st + k) (skipn k (rest st)) (marks st) (caps st).

Fixpoint lookup (g : nat) (l : list (nat * str)) : option str :=
  match l with
  | [] => None
  | (h, v) :: l' => if h =? g then Some v else lookup g l'
  end.

Definition within (hi : option nat) (k : nat) : bool :=
  match hi with None => true | Some h => k <=? h end.

(** Length of the longest prefix of [s] in [cls], no longer than [hi]. *)
Fixpoint run (cls : ascii -> bool) (hi : option nat) (s : str) : nat :=
  match s with
  | [] => 0
  | c :: s' =>
      match hi with
      | Some 0 => 0
      | Some (S h) => if cls c then S (run cls (Some h) s') else 0
      | None => if cls c then S (run cls None s') else 0
      end
  end.

(** The repetition counts to try, in order, when at most [n] are possible. *)
Definition counts (greedy : bool) (lo n : nat) : list nat :=
  let up := seq lo (S n - lo) in
  if greedy then rev up else up.

Definition step (n : node) (st : state) : list state :=
  match n with
  | Bol => if pos st =? 0 then [st] else []
  | Eol =>
      match rest st with
      | [] => [st]
      | [c] => if Ascii.eqb c newline then [st] else []
      | _ => []
      end
  | Lit c =>
      match rest st with
      | x :: _ => if Ascii.eqb x c then [advance 1 st] else []
      | [] => []
      end
  | One cls =>
      match rest st with
      | x :: _ => if cls x then [advance 1 st] else []
      | [] => []
      end
  | Rep cls lo hi greedy =>
      map (fun k => advance k st) (counts greedy lo (run cls hi (rest st)))
  | Open g =>
      [mkState (pos st) (rest st) ((g, rest st) :: marks st) (caps st)]
  | Close g =>
      match lookup g (marks st) with
      | Some r0 =>
          [mkState (pos st) (rest st) (marks st)
             ((g, firstn (length r0 - length (rest st)) r0) :: caps st)]
      | None => [st]
      end
  end.

Fixpoint exec (p : pattern) (st : state) : list state :=
  match p with
  | [] => [st]
  | n :: p' => flat_map (exec p') (step n st)
  end.

(** [re.match(p, s)]: the match object is the final state. *)
Definition re_match (p : pattern) (s : str) : option state :=
  hd_error (exec p (start 0 s)).

(** [re.search(p, s)]: the first position at which [p] matches. *)
Fixpoint search_from (p : pattern) (i : nat) (s : str) : option state :=
  match exec p (start i s) with
  | m :: _ => Some m
  | [] =>
      match s with
      | [] => None
      | _ :: s' => search_from p (S i) s'
      end
  end.

Definition re_search (p : pattern) (s : str) : option state :=
  search_from p 0 s.

(** [m.group(g)] of a group that took part in the match. *)
Definition group (m : state) (g : nat) : str :=
  match lookup g (caps m) with Some v => v | None => [] end.

End Re.

Import Re.

(** ** The parser *)

(** The classes written with brackets in the source. *)
Definition town_char (c : ascii) : bool :=          (* [A-Z\s'] *)
  isupper c || isspace c || Ascii.eqb c "'"%char.
Definition county_char (c : ascii) : bool :=        (* [A-Z\s] *)
  isupper c || isspace c.
Definition is_char (a : ascii) (c : ascii) : bool := Ascii.eqb c a.

(** [^([A-Z\s']+)\s+\(([A-Z\s]+)\)\s+-\s+(\d{5})\s+(RHC-[A-Z])$] *)
Definition header_groups_re : pattern :=
  [Bol; Open 1; plus town_char; Close 1; plus isspace; Lit "("%char;
   Open 2; plus county_char; Close 2; Lit ")"%char; plus isspace; Lit "-"%char;
   plus isspace; Open 3; times 5 isdigit; Close 3; plus isspace; Open 4]
  ++ lits "RHC-" ++ [One isupper; Close 4; Eol].

(** [^[A-Z\s']+\s+\([A-Z\s]+\)\s+-\s+\d{5}\s+RHC-[A-Z]$] *)
Definition header_re : pattern :=
  [Bol; plus town_char; plus isspace; Lit "("%char; plus county_char; Lit ")"%char;
   plus isspace; Lit "-"%char; plus isspace; times 5 isdigit; plus isspace]
  ++ lits "RHC-" ++ [One isupper; Eol].

(** [^(.+?)\s+(\d{6})$] *)
Definition name_re : pattern :=
  [Bol; Open 1; plus_lazy notnewline; Close 1; plus isspace;
   Open 2; times 6 isdigit; Close 2; Eol].

(** [^\((\d{3})\)\s*(\d{3}-\d{4})] *)
Definition phone_re : pattern :=
  [Bol; Lit "("%char; Open 1; times 3 isdigit; Close 1; Lit ")"%char; star isspace;
   Open 2; times 3 isdigit; Lit "-"%char; times 4 isdigit; Close 2].

(** [FAX:\s*\(?(\d{3})\)?\s*(\d{3}-\d{4})] *)
Definition fax_re : pattern :=
  lits "FAX:"
  ++ [star isspace; opt (is_char "("%char); Open 1; times 3 isdigit; Close 1;
      opt (is_char ")"%char); star isspace;
      Open 2; times 3 isdigit; Lit "-"%char; times 4 isdigit; Close 2].

(** One clinic entry: the dictionary built by [parse_entry_lines]. *)
Record entry : Type := mkEntry {
  town : str;
  county : str;
  zip_code : str;
  facility_type : str;
  facility_name : str;
  provider_id : str;
  address : str;
  phone : str;
  fax : str;
  licensee : str;
  administrator : str;
  care_of : str
}.

Definition empty_entry : entry :=
  mkEntry [] [] [] [] [] [] [] [] [] [] [] [].

(** The four assignments made when the header pattern matches. *)
Definition set_header (m : state) (e : entry) : entry :=
  mkEntry (strip (group m 1)) (strip (group m 2)) (group m 3) (group m 4)
    (facility_name e) (provider_id e) (address e) (phone e) (fax e)
    (licensee e) (administrator e) (care_of e).

Definition set_name (name id : str) (e : entry) : entry :=
  mkEntry (town e) (county e) (zip_code e) (facility_type e)
    name id (address e) (phone e) (fax e)
    (licensee e) (administrator e) (care_of e).

Definition set_address (v : str) (e : entry) : entry :=
  mkEntry (town e) (county e) (zip_code e) (facility_type e)
    (facility_name e) (provider_id e) v (phone e) (fax e)
    (licensee e) (administrator e) (care_of e).

Definition set_phone (v : str) (e : entry) : entry :=
  mkEntry (town e) (county e) (zip_code e) (facility_type e)
    (facility_name e) (provider_id e) (address e) v (fax e)
    (licensee e) (administrator e) (care_of e).

Definition set_fax (v : str) (e : entry) : entry :=
  mkEntry (town e) (county e) (zip_code e) (facility_type e)
    (facility_name e) (provider_id e) (address e) (phone e) v
    (licensee e) (administrator e) (care_of e).

Definition set_licensee (v : str) (e : entry) : entry :=
  mkEntry (town e) (county e) (zip_code e) (facility_type e)
    (facility_name e) (provider_id e) (address e) (phone e) (fax e)
    v (administrator e) (care_of e).

Definition set_administrator (v : str) (e : entry) : entry :=
  mkEntry (town e) (county e) (zip_code e) (facility_type e)
    (facility_name e) (provider_id e) (address e) (phone e) (fax e)
    (licensee e) v (care_of e).

Definition set_care_of (v : str) (e : entry) : entry :=
  mkEntry (town e) (county e) (zip_code e) (facility_type e)
    (facility_name e) (provider_id e) (address e) (phone e) (fax e)
    (licensee e) (administrator e) v.

(** [f"({a}) {b}"] *)
Definition paren_fmt (a b : str) : str := "("%char :: a ++ ")"%char :: " "%char :: b.

(** [lines[i]], read only where the source has checked the length. *)
Definition line_at (lines : list str) (i : nat) : str := nth i lines [].

(** The loop over [lines[6:]], with its [break]. *)
Fixpoint scan_care_of (ls : list str) (e : entry) : entry :=
  match ls with
  | [] => e
  | line :: ls' =>
      if startswith (strip line) (txt "c/o:")
      then set_care_of (strip (skipn 4 (strip line))) e
      else scan_care_of ls' e
  end.

Definition parse_entry_lines (lines : list str) : entry :=
  let e := empty_entry in
  match lines with
  | [] => e
  | _ :: _ =>
      let e :=
        match re_match header_groups_re (strip (line_at lines 0)) with
        | Some m => set_header m e
        | None => e
        end in
      let e :=
        if 1 <? length lines then
          match re_match name_re (strip (line_at lines 1)) with
          | Some m => set_name (strip (group m 1)) (group m 2) e
          | None => set_name (strip (line_at lines 1)) (provider_id e) e
          end
        else e in
      let e :=
        if 2 <? length lines then set_address (strip (line_at lines 2)) e
        else e in
      let e :=
        if 3 <? length lines then
          let phone_line := strip (line_at lines 3) in
          let e :=
            match re_match phone_re phone_line with
            | Some m => set_phone (paren_fmt (group m 1) (group m 2)) e
            | None => e
            end in
          match re_search fax_re phone_line with
          | Some m => set_fax (paren_fmt (group m 1) (group m 2)) e
          | None => e
          end
        else e in
      let e :=
        if 4 <? length lines then set_licensee (strip (line_at lines 4)) e
        else e in
      let e :=
        if 5 <? length lines
        then set_administrator (strip (line_at lines 5)) e
        else e in
      scan_care_of (skipn 6 lines) e
  end.

Definition is_entry_header (line : str) : bool :=
  match re_match header_re (strip line) with
  | Some _ => true
  | None => false
  end.

(** The body of [parse_pdf]'s loop over pages, for a page whose text has
    been split into [lines]; the loop state is the list [entries] and the
    group [current_entry_lines]. *)

(** "Process previous entry if exists" / "Process last entry on page". *)
Definition flush (entries : list entry) (current : list str) : list entry :=
  match current with
  | [] => entries
  | _ :: _ =>
      let e := parse_entry_lines current in
      if nonempty (facility_name e) then entries ++ [e] else entries
  end.

Definition is_total_line (line : str) : bool :=
  startswith (strip line) (txt "Total Facilities:").

Definition scan_line (st : list entry * list str) (line : str)
  : list entry * list str :=
  let (entries, current) := st in
  if is_total_line line then st
  else if is_entry_header line then (flush entries current, [line])
  else
    match current with
    | _ :: _ => (entries, current ++ [line])
    | [] => st
    end.

Definition parse_page (entries : list entry) (lines : list str)
  : list entry :=
  let data_lines := skipn 7 lines in
  let (entries, current) := fold_left scan_line data_lines (entries, []) in
  flush entries current.

(** The page segmenter of the specification: the entries one page adds. *)
Definition segment_page (lines : list str) : list entry :=
  parse_page [] lines.

(** [parse_pdf] over the pages' extracted texts ([None] when
    [extract_text] gives nothing). *)
Definition parse_pdf (pages : list (option str)) : list entry :=
  fold_left
    (fun entries page =>
       match page with
       | None | Some [] => entries
       | Some text => parse_page entries (split newline text)
       end)
    (skipn 1 pages) [].

(** ** Vocabulary of the statements *)

(** [cls+] and [cls{n}] as sets of texts. *)
Definition many (cls : ascii -> bool) (u : str) : Prop :=
  1 <= length u /\ forallb cls u = true.

Definition exactly (n : nat) (cls : ascii -> bool) (u : str) : Prop :=
  length u = n /\ forallb cls u = true.

(** The text of a header: town, county, ZIP code and type letter with the
    whitespace runs [s1] .. [s4] between them. *)
Definition header_text (t s1 c s2 s3 z s4 : str) (x : ascii) : str :=
  t ++ s1 ++ "("%char :: c ++ ")"%char :: s2 ++ "-"%char :: s3
    ++ z ++ s4 ++ txt "RHC-" ++ [x].

Definition header_shape (w t c z : str) (x : ascii) : Prop :=
  exists s1 s2 s3 s4,
    w = header_text t s1 c s2 s3 z s4 x
    /\ many town_char t /\ many isspace s1 /\ many county_char c
    /\ many isspace s2 /\ many isspace s3 /\ exactly 5 isdigit z
    /\ many isspace s4 /\ isupper x = true.

(** Groups and the pattern without them. *)
Definition is_group (n : node) : bool :=
  match n with Open _ | Close _ => true | _ => false end.

(** The pattern without its capturing parentheses. *)
Definition erase (p : pattern) : pattern :=
  filter (fun n => negb (is_group n)) p.

Definition same_text (a b : state) : Prop :=
  pos a = pos b /\ rest a = rest b.

(** The fields as [parse_entry_lines] computes them, line by line. *)
Definition header_view (l : str) : entry -> entry :=
  match re_match header_groups_re (strip l) with
  | Some m => set_header m
  | None => fun e => e
  end.

Definition name_view (l : str) : str * str :=
  match re_match name_re (strip l) with
  | Some m => (strip (group m 1), group m 2)
  | None => (strip l, [])
  end.

Definition phone_view (l : str) : str :=
  match re_match phone_re (strip l) with
  | Some m => paren_fmt (group m 1) (group m 2)
  | None => []
  end.

Definition fax_view (l : str) : str :=
  match re_search fax_re (strip l) with
  | Some m => paren_fmt (group m 1) (group m 2)
  | None => []
  end.

Definition care_of_view (ls : list str) : str :=
  care_of (scan_care_of ls empty_entry).

(** The trimmed line at index [i], or the empty default. *)
Definition trimmed_at (lines : list str) (i : nat) : str :=
  match nth_error lines i with Some l => strip l | None => [] end.

Definition at_line {A : Type} (lines : list str) (i : nat) (f : str -> A)
  (d : A) : A :=
  match nth_error lines i with Some l => f l | None => d end.

(** Whitespace runs and optional characters. *)
Definition spaces (u : str) : Prop := forallb isspace u = true.

Definition optional (c : ascii) (u : str) : Prop := u = [] \/ u = [c].

(** [NNN-NNNN] *)
Definition local_number (b c : str) : str := b ++ "-"%char :: c.

(** A line that starts with a phone number: area code [a], exchange [b],
    number [c]. *)
Definition phone_shape (w a b c : str) : Prop :=
  exists s post,
    w = "("%char :: a ++ ")"%char :: s ++ local_number b c ++ post
    /\ exactly 3 isdigit a /\ spaces s
    /\ exactly 3 isdigit b /\ exactly 4 isdigit c.

(** A line with a fax number after the text [pre]. *)
Definition fax_shape (w pre a b c : str) : Prop :=
  exists s1 lp rp s2 post,
    w = pre ++ txt "FAX:" ++ s1 ++ lp ++ a ++ rp ++ s2
          ++ local_number b c ++ post
    /\ spaces s1 /\ optional "("%char lp /\ exactly 3 isdigit a
    /\ optional ")"%char rp /\ spaces s2
    /\ exactly 3 isdigit b /\ exactly 4 isdigit c.

(** The line groups the page scan closes, in order: the scan of
    [parse_page] with every closed group kept as it is. *)
Definition close_group (closed : list (list str)) (current : list str)
  : list (list str) :=
  match current with
  | [] => closed
  | _ :: _ => closed ++ [current]
  end.

Definition group_line (st : list (list str) * list str) (line : str)
  : list (list str) * list str :=
  let (closed, current) := st in
  if is_total_line line then st
  else if is_entry_header line then (close_group closed current, [line])
  else
    match current with
    | _ :: _ => (closed, current ++ [line])
    | [] => st
    end.

Definition page_groups (lines : list str) : list (list str) :=
  let (closed, current) := fold_left group_line (skipn 7 lines) ([], []) in
  close_group closed current.

(** The test applied before an entry is appended. *)
Definition valid (e : entry) : bool := nonempty (facility_name e).

(** A page without its total lines below the seven lines of boilerplate. *)
Definition without_totals (lines : list str) : list str :=
  firstn 7 lines ++ filter (fun l => negb (is_total_line l)) (skipn 7 lines).

(** The header fields of an entry are populated. *)
Definition header_populated (e : entry) : Prop :=
  town e <> []
  /\ exactly 5 isdigit (zip_code e)
  /\ exists x, isupper x = true /\ facility_type e = txt "RHC-" ++ [x].

(** ["{town} ({county}) - {zip_code} {facility_type}"] *)
Definition header_line_of (e : entry) : str :=
  town e ++ txt " (" ++ county e ++ txt ") - " ++ zip_code e
    ++ txt " " ++ facility_type e.

(** The twelve fields and the line each is read from. *)
Inductive field : Type :=
| Town | County | Zip_code | Facility_type | Facility_name | Provider_id
| Address | Phone | Fax | Licensee | Administrator | Care_of.

Definition get (f : field) (e : entry) : str :=
  match f with
  | Town => town e
  | County => county e
  | Zip_code => zip_code e
  | Facility_type => facility_type e
  | Facility_name => facility_name e
  | Provider_id => provider_id e
  | Address => address e
  | Phone => phone e
  | Fax => fax e
  | Licensee => licensee e
  | Administrator => administrator e
  | Care_of => care_of e
  end.

Definition line_index (f : field) : nat :=
  match f with
  | Town | County | Zip_code | Facility_type => 0
  | Facility_name | Provider_id => 1
  | Address => 2
  | Phone | Fax => 3
  | Licensee => 4
  | Administrator => 5
  | Care_of => 6
  end.

(** [p] occurs in [s]. *)
Fixpoint occurs (p s : str) : bool :=
  startswith s p
  || match s with
     | [] => false
     | _ :: s' => occurs p s'
     end.

(** A group that starts with a header line and holds no total line. *)
Definition headed (g : list str) : Prop :=
  (exists l ls, g = l :: ls /\ is_entry_header l = true)
  /\ Forall (fun l => is_total_line l = false) g.

(** ** Sample inputs *)

Definition adams_lines : list str :=
  [txt "ADAMS (GAGE) - 68301 RHC-C";
   txt "ADAMS PRIMARY CARE 283499";
   txt "PO BOX 963, 620 MAIN STREET, SUITE A";
   txt "(402) 988-2188 FAX:";
   txt "JOHNSON COUNTY HOSPITAL";
   txt "MARY KENT, ADMINISTRATOR"].

Definition arapahoe_lines : list str :=
  [txt "ARAPAHOE (FURNAS) - 68922 RHC-C";
   txt "ARAPAHOE MEDICAL CLINIC 283976";
   txt "P.O. BOX 389, 305 NEBRASKA AVENUE";
   txt "(308) 962-8495 FAX:(308) 962-7916";
   txt "TRI VALLEY HEALTH SYSTEM";
   txt "CLAY JORDAN, ADMINISTRATOR"].

Definition ainsworth_lines : list str :=
  [txt "AINSWORTH (BROWN) - 69210 RHC-C";
   txt "Brown County Hospital d/b/a Ainsworth Family Clinic 288520";
   txt "913 EAST ZERO STREET";
   txt "(402) 387-1900 FAX:";
   txt "BROWN COUNTY HOSPITAL";
   txt "MIRYA HALLOCK, ADMINISTRATOR";
   txt "c/o: SHANNON M SORENSON AINSWORTH FAMILY CLINIC"].

(** A header whose hyphen stands between two tabs. *)
Definition tabbed_header : str :=
  txt "A (B)" ++ [tab] ++ txt "-" ++ [tab] ++ txt "12345 RHC-A".

(** A phone line with a space between "FAX:" and the number. *)
Definition fax_spaced_line : str := txt "(308) 962-8495 FAX: (308) 962-7916".

(** The fax pattern as the specification words it: "FAX:", an optional
    parenthesis, 3 digits, an optional closing parenthesis, an optional
    space, 3 digits, a hyphen, 4 digits. *)
Definition claimed_fax_re : pattern :=
  lits "FAX:"
  ++ [opt (is_char "("%char); Open 1; times 3 isdigit; Close 1;
      opt (is_char ")"%char); opt (is_char " "%char);
      Open 2; times 3 isdigit; Lit "-"%char; times 4 isdigit; Close 2].

(** A name line with a line feed inside the name. *)
Definition newline_name : str := txt "A" ++ [newline] ++ txt "B".
Definition newline_name_line : str := newline_name ++ txt " 123456".

(** A header whose county is a single space. *)
Definition blank_county_header : str := txt "A ( ) - 12345 RHC-A".

(** A page whose first line is a total line, followed by six more lines of
    boilerplate and one entry. *)
Definition shifted_page : list str :=
  txt "Total Facilities: 1" :: repeat (txt "column label") 6 ++ adams_lines.

(** A page of seven boilerplate lines and two entries with a total line
    between them. *)
Definition two_entry_page : list str :=
  repeat (txt "column label") 7
  ++ adams_lines ++ [txt "Total Facilities: 2"] ++ arapahoe_lines.

(** A number in the form "(AAA) NNN-NNNN". *)
Definition canonical_number (s : str) : Prop :=
  exists a b c,
    exactly 3 isdigit a /\ exactly 3 isdigit b /\ exactly 4 isdigit c
    /\ s = paren_fmt a (local_number b c).

(** The entries one page of the document adds: none for a page without
    text. *)
Definition page_entries (page : option str) : list entry :=
  match page with
  | None | Some [] => []
  | Some text => segment_page (split newline text)
  end.

(** The lines of a page that follow its first header line. *)
Fixpoint from_first_header (ls : list str) : list str :=
  match ls with
  | [] => []
  | l :: ls' => if is_entry_header l then ls else from_first_header ls'
  end.

(** The data lines of a page that are no total lines. *)
Definition data_lines (lines : list str) : list str :=
  filter (fun l => negb (is_total_line l)) (skipn 7 lines).

(** A header line followed by lines that are neither headers nor total
    lines. *)
Definition entry_group (g : list str) : Prop :=
  exists h body,
    g = h :: body /\ is_entry_header h = true
    /\ Forall (fun l => is_entry_header l = false
                        /\ is_total_line l = false) body.

(** [sep.join(pieces)] for a one-character separator. *)
Fixpoint join (sep : ascii) (pieces : list str) : str :=
  match pieces with
  | [] => []
  | [p] => p
  | p :: ps => p ++ sep :: join sep ps
  end.

(** ** Rows of the CSV file *)

(** The column names of [save_to_csv]. *)
Definition fieldnames : list string :=
  ["town"; "county"; "zip_code"; "facility_type"; "facility_name";
   "provider_id"; "address"; "phone"; "fax"; "licensee"; "administrator";
   "care_of"; "date_gathered"]%string.

(** A dictionary with text keys, in insertion order. *)
Definition dict := list (string * str).

(** An entry as the dictionary [parse_entry_lines] builds, key by key. *)
Definition entry_dict (e : entry) : dict :=
  [("town", town e); ("county", county e); ("zip_code", zip_code e);
   ("facility_type", facility_type e); ("facility_name", facility_name e);
   ("provider_id", provider_id e); ("address", address e);
   ("phone", phone e); ("fax", fax e); ("licensee", licensee e);
   ("administrator", administrator e); ("care_of", care_of e)]%string.

(** [d.get(k, default)] *)
Fixpoint dict_get (k : string) (d : dict) (default : str) : str :=
  match d with
  | [] => default
  | (k', v) :: d' => if String.eqb k' k then v else dict_get k d' default
  end.

(** [d[k] = v]: the value of a key already there is replaced in place, a
    new key goes to the end. *)
Fixpoint dict_set (k : string) (v : str) (d : dict) : dict :=
  match d with
  | [] => [(k, v)]
  | (k', v') :: d' =>
      if String.eqb k' k then (k, v) :: d' else (k', v') :: dict_set k v d'
  end.

Definition has_key (names : list string) (k : string) : bool :=
  existsb (String.eqb k) names.

(** What [csv.DictWriter(f, fieldnames=names).writerow(row)] hands to the
    writer: [None] stands for the [ValueError] raised when the row has a
    key that is no column; a column the row lacks gets the empty text. *)
Definition dict_to_list (names : list string) (row : dict)
  : option (list str) :=
  if forallb (fun kv => has_key names (fst kv)) row
  then Some (map (fun k => dict_get k row []) names)
  else None.

(** The row [save_to_csv] writes for one entry: a copy of the entry with
    the date added. *)
Definition csv_row (today : str) (e : entry) : option (list str) :=
  let row := entry_dict e in
  let row := dict_set "date_gathered" today row in
  dict_to_list fieldnames row.

(** The rows [save_to_csv] writes, after the header row, or [None] when
    one of them raises. *)
Fixpoint csv_rows (today : str) (entries : list entry)
  : option (list (list str)) :=
  match entries with
  | [] => Some []
  | e :: es =>
      match csv_row today e with
      | None => None
      | Some r =>
          match csv_rows today es with
          | None => None
          | Some rs => Some (r :: rs)
          end
      end
  end.

(** The entry read back from a row. *)
Definition entry_of_row (r : list str) : entry :=
  mkEntry (nth 0 r []) (nth 1 r []) (nth 2 r []) (nth 3 r []) (nth 4 r [])
    (nth 5 r []) (nth 6 r []) (nth 7 r []) (nth 8 r []) (nth 9 r [])
    (nth 10 r []) (nth 11 r []).

(** The characters a header line is made of. *)
Definition header_char (c : ascii) : bool :=
  isupper c || isspace c || isdigit c
  || Ascii.eqb c "'"%char || Ascii.eqb c "("%char || Ascii.eqb c ")"%char
  || Ascii.eqb c "-"%char.

(** * Facts and proofs *)

(** ** The examples of the test suite *)

Example ex_header_adams :
  is_entry_header (txt "ADAMS (GAGE) - 68301 RHC-C") = true.
Proof. vm_compute. reflexivity. Qed.

Example ex_header_oneill :
  is_entry_header (txt "O' NEILL (HOLT) - 68763 RHC-C") = true.
Proof. vm_compute. reflexivity. Qed.

Example ex_header_invalid :
  is_entry_header (txt "ADAMS PRIMARY CARE 283499") = false
  /\ is_entry_header (txt "TOWN (County) Zip Code") = false
  /\ is_entry_header [] = false.
Proof. vm_compute. auto. Qed.

Example ex_complete_entry :
  parse_entry_lines adams_lines =
  mkEntry (txt "ADAMS") (txt "GAGE") (txt "68301") (txt "RHC-C")
    (txt "ADAMS PRIMARY CARE") (txt "283499")
    (txt "PO BOX 963, 620 MAIN STREET, SUITE A")
    (txt "(402) 988-2188") [] (txt "JOHNSON COUNTY HOSPITAL")
    (txt "MARY KENT, ADMINISTRATOR") [].
Proof. vm_compute. reflexivity. Qed.

(** ** Facts about text *)

Section TextFacts.

Lemma lstrip_first (s : str) (c : ascii) (u : str) :
  lstrip s = c :: u -> isspace c = false.
Proof.
  induction s as [|a s IH]; simpl; [discriminate|].
  destruct (isspace a) eqn:Ha; [exact IH|].
  intros E. injection E as -> _. exact Ha.
Qed.

Lemma lstrip_fixed (s : str) (c : ascii) (u : str) :
  s = c :: u -> isspace c = false -> lstrip s = s.
Proof. intros -> H. simpl. now rewrite H. Qed.

Lemma lstrip_suffix (s : str) : exists w, s = w ++ lstrip s /\ forallb isspace w = true.
Proof.
  induction s as [|a s [w [E F]]]; simpl.
  - now exists [].
  - destruct (isspace a) eqn:Ha.
    + exists (a :: w). simpl. rewrite Ha, F. split; [now f_equal|reflexivity].
    + now exists [].
Qed.

Lemma lstrip_spaces (w s : str) :
  forallb isspace w = true -> lstrip (w ++ s) = lstrip s.
Proof.
  induction w as [|a w IH]; simpl; [reflexivity|].
  intros H. apply andb_true_iff in H as [Ha Hw]. rewrite Ha. now apply IH.
Qed.

Lemma rstrip_last (s u : str) (c : ascii) :
  rstrip s = u ++ [c] -> isspace c = false.
Proof.
  unfold rstrip. intros E.
  apply (f_equal (@rev ascii)) in E. rewrite rev_involutive, rev_app_distr in E.
  simpl in E. now apply lstrip_first in E.
Qed.

Lemma rstrip_fixed (u : str) (c : ascii) :
  isspace c = false -> rstrip (u ++ [c]) = u ++ [c].
Proof.
  intros H. unfold rstrip. rewrite rev_app_distr. simpl. rewrite H.
  simpl. now rewrite rev_involutive.
Qed.

Lemma rstrip_spaces (s w : str) :
  forallb isspace w = true -> rstrip (s ++ w) = rstrip s.
Proof.
  intros H. unfold rstrip. rewrite rev_app_distr. f_equal.
  apply lstrip_spaces. rewrite forallb_forall in *.
  intros x Hx. apply H. now apply in_rev.
Qed.

Lemma rstrip_prefix (s : str) : exists w, s = rstrip s ++ w /\ forallb isspace w = true.
Proof.
  destruct (lstrip_suffix (rev s)) as [w [E F]].
  exists (rev w). split.
  - unfold rstrip. rewrite <- rev_app_distr, <- E. now rewrite rev_involutive.
  - rewrite forallb_forall in *. intros x Hx. apply F. now apply in_rev.
Qed.

(** Trimming on the right keeps the first character. *)
Lemma rstrip_keeps_first (s : str) (c : ascii) (u : str) :
  rstrip s = c :: u -> exists v, s = c :: v.
Proof.
  intros E. destruct (rstrip_prefix s) as [w [Es _]].
  rewrite E in Es. simpl in Es. eauto.
Qed.

Lemma strip_first (s : str) (c : ascii) (u : str) :
  strip s = c :: u -> isspace c = false.
Proof.
  unfold strip. intros E.
  destruct (rstrip_keeps_first _ _ _ E) as [v Ev].
  now apply lstrip_first in Ev.
Qed.

Lemma strip_last (s u : str) (c : ascii) :
  strip s = u ++ [c] -> isspace c = false.
Proof. unfold strip. apply rstrip_last. Qed.

(** A text that neither starts nor ends with whitespace is its own trim. *)
Lemma strip_fixed (c d : ascii) (u v : str) :
  isspace c = false -> isspace d = false ->
  c :: u = v ++ [d] -> strip (c :: u) = c :: u.
Proof.
  intros Hc Hd E. unfold strip.
  rewrite (lstrip_fixed (c :: u) c u eq_refl Hc).
  rewrite E. now apply rstrip_fixed.
Qed.

Lemma startswith_app (p s : str) : startswith (p ++ s) p = true.
Proof.
  induction p as [|a p IH]; simpl; [reflexivity|].
  now rewrite Ascii.eqb_refl.
Qed.

Lemma startswith_iff (s p : str) :
  startswith s p = true <-> exists r, s = p ++ r.
Proof.
  revert s. induction p as [|a p IH]; intros s; simpl.
  - split; eauto.
  - destruct s as [|b s].
    + split; [discriminate|]. intros [r E]. discriminate.
    + rewrite andb_true_iff, Ascii.eqb_eq, IH. split.
      * intros [-> [r ->]]. eauto.
      * intros [r E]. injection E as -> ->. eauto.
Qed.

End TextFacts.

(** ** Facts about the matcher

    Each node's successes are described by what the node reads; a pattern's
    successes are then read off node by node. *)

Section MatcherFacts.

Lemma run_spec (cls : ascii -> bool) (s : str) :
  forall hi k,
    k <= run cls hi s <->
    k <= length s /\ within hi k = true /\ forallb cls (firstn k s) = true.
Proof.
  induction s as [|c s IH]; intros hi k.
  - simpl. destruct k; simpl.
    + destruct hi; simpl; intuition.
    + intuition lia.
  - destruct k as [|k].
    + simpl. destruct hi; simpl; intuition lia.
    + assert (Hstep : forall h,
                 S k <= (if cls c then S (run cls h s) else 0) <->
                 k <= length s /\ within h k = true
                 /\ forallb cls (c :: firstn k s) = true).
      { intros h. simpl. destruct (cls c); simpl.
        - rewrite <- IH. lia.
        - intuition (try lia; try discriminate). }
      destruct hi as [[|h]|]; simpl run; simpl firstn; simpl length.
      * simpl. intuition (try lia; try discriminate).
      * rewrite Hstep. simpl within. intuition lia.
      * rewrite Hstep. simpl within. intuition lia.
Qed.

Lemma in_counts (greedy : bool) (lo n k : nat) :
  In k (counts greedy lo n) <-> lo <= k <= n.
Proof.
  unfold counts. destruct greedy.
  - rewrite <- in_rev, in_seq. lia.
  - rewrite in_seq. lia.
Qed.

Lemma in_step_rep cls lo hi greedy (st st' : state) :
  In st' (step (Rep cls lo hi greedy) st) <->
  exists u r,
    rest st = u ++ r /\ forallb cls u = true /\ lo <= length u
    /\ within hi (length u) = true
    /\ st' = mkState (pos st + length u) r (marks st) (caps st).
Proof.
  simpl. rewrite in_map_iff. split.
  - intros [k [<- Hk]]. apply in_counts in Hk as [Hlo Hhi].
    apply run_spec in Hhi as [Hlen [Hw Hall]].
    exists (firstn k (rest st)), (skipn k (rest st)).
    rewrite firstn_skipn, length_firstn, Nat.min_l by assumption.
    repeat split; assumption.
  - intros [u [r [E [Hall [Hlo [Hw ->]]]]]].
    exists (length u). split.
    + unfold advance. rewrite E, skipn_app, skipn_all, Nat.sub_diag.
      reflexivity.
    + apply in_counts. split; [assumption|]. apply run_spec.
      rewrite E, length_app, firstn_app, Nat.sub_diag, firstn_all.
      simpl. rewrite app_nil_r. repeat split; [lia|assumption|assumption].
Qed.

Lemma in_step_lit c (st st' : state) :
  In st' (step (Lit c) st) <->
  exists r, rest st = c :: r
            /\ st' = mkState (pos st + 1) r (marks st) (caps st).
Proof.
  simpl. destruct (rest st) as [|x r] eqn:E; simpl.
  - split; [tauto|]. intros [r' [D _]]. discriminate.
  - destruct (Ascii.eqb x c) eqn:Hx; simpl.
    + apply Ascii.eqb_eq in Hx as ->. unfold advance. rewrite E. simpl.
      split.
      * intros [<-|[]]. eauto.
      * intros [r' [D ->]]. injection D as ->. now left.
    + split; [tauto|]. intros [r' [D _]]. injection D as -> _.
      now rewrite Ascii.eqb_refl in Hx.
Qed.

Lemma in_step_one cls (st st' : state) :
  In st' (step (One cls) st) <->
  exists x r, rest st = x :: r /\ cls x = true
              /\ st' = mkState (pos st + 1) r (marks st) (caps st).
Proof.
  simpl. destruct (rest st) as [|x r] eqn:E; simpl.
  - split; [tauto|]. intros [x [r' [D _]]]. discriminate.
  - destruct (cls x) eqn:Hx; simpl.
    + unfold advance. rewrite E. simpl. split.
      * intros [<-|[]]. eauto.
      * intros [y [r' [D [_ ->]]]]. injection D as -> ->. now left.
    + split; [tauto|]. intros [y [r' [D [Hy _]]]]. injection D as -> _.
      congruence.
Qed.

Lemma in_step_bol (st st' : state) :
  In st' (step Bol st) <-> pos st = 0 /\ st' = st.
Proof.
  simpl. destruct (pos st =? 0) eqn:E; simpl.
  - apply Nat.eqb_eq in E. intuition.
  - apply Nat.eqb_neq in E. intuition.
Qed.

Lemma in_step_eol (st st' : state) :
  In st' (step Eol st) <->
  (rest st = [] \/ rest st = [newline]) /\ st' = st.
Proof.
  simpl. destruct (rest st) as [|c [|d r]]; simpl.
  - intuition.
  - destruct (Ascii.eqb c newline) eqn:E; simpl.
    + apply Ascii.eqb_eq in E as ->. intuition.
    + apply Ascii.eqb_neq in E. intuition (try discriminate).
      congruence.
  - intuition discriminate.
Qed.

Lemma in_step_open g (st st' : state) :
  In st' (step (Open g) st) <->
  st' = mkState (pos st) (rest st) ((g, rest st) :: marks st) (caps st).
Proof. simpl. intuition. Qed.

Lemma in_exec_cons n p (st st' : state) :
  In st' (exec (n :: p) st) <->
  exists mid, In mid (step n st) /\ In st' (exec p mid).
Proof. simpl. apply in_flat_map. Qed.

Lemma in_exec_nil (st st' : state) : In st' (exec [] st) <-> st' = st.
Proof. simpl. intuition. Qed.

(** What a closing parenthesis records, when the group opened at [u ++ r]
    and [r] is still to read. *)
Lemma firstn_read (r0 u r : str) :
  r0 = u ++ r -> firstn (length r0 - length r) r0 = u.
Proof.
  intros ->. rewrite length_app, Nat.add_sub, firstn_app, Nat.sub_diag.
  rewrite firstn_all. simpl. apply app_nil_r.
Qed.

Lemma hd_error_in {A : Type} (l : list A) (x : A) :
  hd_error l = Some x -> In x l.
Proof. destruct l; simpl; [discriminate|]. intros E. injection E as ->. now left. Qed.

Lemma hd_error_none {A : Type} (l : list A) :
  hd_error l = None <-> l = [].
Proof. destruct l; simpl; split; congruence. Qed.

Lemma in_hd_error {A : Type} (l : list A) (x : A) :
  In x l -> exists y, hd_error l = Some y.
Proof. destruct l; simpl; [tauto|eauto]. Qed.

End MatcherFacts.

(** ** Patterns read node by node *)

Lemma in_step_close g (st st' : state) r0 :
  lookup g (marks st) = Some r0 ->
  In st' (step (Close g) st) <->
  st' = mkState (pos st) (rest st) (marks st)
          ((g, firstn (length r0 - length (rest st)) r0) :: caps st).
Proof. intros E. simpl. rewrite E. simpl. intuition. Qed.

(** From a success of one node to what it read. *)
Ltac step_inv H :=
  lazymatch type of H with
  | In _ (step Bol _) => apply in_step_bol in H; destruct H as [_ H]
  | In _ (step Eol _) =>
      let T := fresh "Htail" in
      apply in_step_eol in H; destruct H as [T H];
      cbn [pos rest marks caps] in T
  | In _ (step (Lit _) _) =>
      let r := fresh "r" in let E := fresh "E" in
      apply in_step_lit in H; destruct H as [r [E H]];
      cbn [pos rest marks caps] in E
  | In _ (step (One _) _) =>
      let x := fresh "x" in let r := fresh "r" in
      let E := fresh "E" in let Hx := fresh "Hx" in
      apply in_step_one in H; destruct H as [x [r [E [Hx H]]]];
      cbn [pos rest marks caps] in E
  | In _ (step (Rep _ _ _ _) _) =>
      let u := fresh "u" in let r := fresh "r" in
      let E := fresh "E" in let Ha := fresh "Hall" in
      let Hl := fresh "Hlo" in let Hh := fresh "Hhi" in
      apply in_step_rep in H; destruct H as [u [r [E [Ha [Hl [Hh H]]]]]];
      cbn [pos rest marks caps within] in E, Hh
  | In _ (step (Open _) _) => apply in_step_open in H
  | In _ (step (Close _) _) =>
      erewrite in_step_close in H by (cbn; reflexivity)
  end.

(** From a success of a whole pattern to what each node read. *)
Ltac exec_inv H :=
  repeat lazymatch type of H with
  | In _ (exec (_ :: _) _) =>
      let mid := fresh "mid" in let Hs := fresh "Hs" in
      apply in_exec_cons in H; destruct H as [mid [Hs H]];
      step_inv Hs; subst; cbn [pos rest marks caps] in H
  | In _ (exec [] _) => apply in_exec_nil in H
  end.

(** One node forward, when the text to read is the node's share followed
    by the rest. *)
Ltac step_fwd :=
  lazymatch goal with
  | |- exists _, In _ (exec [] _) => eexists; apply in_exec_nil; reflexivity
  | |- exists _, In _ (exec (?n :: ?p) ?st) =>
      let K := fresh "K" in
      enough (K : exists mid, In mid (step n st)
                              /\ exists st', In st' (exec p mid));
      [ destruct K as [? [? [? ?]]]; eexists; apply in_exec_cons; eauto | ];
      eexists; split;
      [ lazymatch n with
        | Bol => apply in_step_bol; split; reflexivity
        | Eol => apply in_step_eol; split; [left; reflexivity | reflexivity]
        | Lit _ => apply in_step_lit; eexists; split; cbn [rest]; reflexivity
        | One _ =>
            apply in_step_one; eexists _, _;
            split; [cbn [rest]; reflexivity | split; [ | reflexivity ] ]
        | Rep _ _ _ _ =>
            apply in_step_rep; eexists _, _;
            split; [cbn [rest]; reflexivity | ];
            split; [ | split; [ | split; [ | reflexivity ] ] ]
        | Open _ => apply in_step_open; reflexivity
        | Close _ => cbn; left; reflexivity
        end
      | cbn [pos rest marks caps] ]
  end.

Ltac side :=
  solve [ assumption | reflexivity | lia
        | cbn [within]; apply Nat.leb_le; lia ].

Ltac exec_fwd := repeat (step_fwd; try side).

(** A pattern with its shorthands written out. *)
Ltac expand p :=
  let q := eval cbv [p plus star opt times plus_lazy lits txt
                     list_ascii_of_string map app] in p in
  change p with q in *.

(** *** Groups do not change what a pattern accepts *)

Lemma same_text_sym a b : same_text a b -> same_text b a.
Proof. intros [H1 H2]. split; congruence. Qed.

Lemma same_text_trans a b c : same_text a b -> same_text b c -> same_text a c.
Proof. intros [H1 H2] [H3 H4]. split; congruence. Qed.

Lemma step_same_text n a b a' :
  is_group n = false -> same_text a b -> In a' (step n a) ->
  exists b', In b' (step n b) /\ same_text a' b'.
Proof.
  intros Hn [Hp Hr] Ha. destruct n; try discriminate Hn.
  - apply in_step_bol in Ha as [Z ->]. exists b. split.
    + apply in_step_bol. split; congruence.
    + now split.
  - apply in_step_eol in Ha as [Z ->]. exists b. split.
    + apply in_step_eol. rewrite <- Hr. now split.
    + now split.
  - apply in_step_lit in Ha as [r [E ->]].
    exists (mkState (pos b + 1) r (marks b) (caps b)). split.
    + apply in_step_lit. exists r. split; congruence.
    + split; simpl; congruence.
  - apply in_step_one in Ha as [x [r [E [Hx ->]]]].
    exists (mkState (pos b + 1) r (marks b) (caps b)). split.
    + apply in_step_one. exists x, r. repeat split; congruence.
    + split; simpl; congruence.
  - apply in_step_rep in Ha as [u [r [E [Hall [Hlo [Hw ->]]]]]].
    exists (mkState (pos b + length u) r (marks b) (caps b)). split.
    + apply in_step_rep. exists u, r. repeat split; congruence.
    + split; simpl; congruence.
Qed.

Lemma step_group n a a' :
  is_group n = true -> In a' (step n a) -> same_text a' a.
Proof.
  intros Hn Ha. destruct n; try discriminate Hn; simpl in Ha.
  - destruct Ha as [<-|[]]. now split.
  - destruct (lookup g (marks a)); destruct Ha as [<-|[]]; now split.
Qed.

Lemma step_group_total n a :
  is_group n = true -> exists a', In a' (step n a).
Proof.
  intros Hn. destruct n; try discriminate Hn; simpl.
  - eexists. now left.
  - destruct (lookup g (marks a)); eexists; now left.
Qed.

Lemma exec_erase (p : pattern) :
  forall a b, same_text a b ->
    (exists a', In a' (exec p a)) <-> (exists b', In b' (exec (erase p) b)).
Proof.
  induction p as [|n p IH]; intros a b Hab.
  - simpl. split; intros _; eauto.
  - unfold erase. simpl filter. fold (erase p).
    destruct (is_group n) eqn:Hn; simpl negb; cbv iota.
    + split.
      * intros [a' Ha]. apply in_exec_cons in Ha; destruct Ha as [mid [Hs Ha]].
        apply (IH mid b); [|eauto].
        eapply same_text_trans; [eapply step_group; eauto|exact Hab].
      * intros Hb. destruct (step_group_total n a Hn) as [mid Hs].
        assert (Hm : same_text mid b).
        { eapply same_text_trans; [eapply step_group; eauto|exact Hab]. }
        destruct (proj2 (IH mid b Hm) Hb) as [a' Ha].
        exists a'. apply in_exec_cons. eauto.
    + split.
      * intros [a' Ha]. apply in_exec_cons in Ha; destruct Ha as [mid [Hs Ha]].
        destruct (step_same_text n a b mid Hn Hab Hs) as [mid' [Hs' Hm]].
        destruct (proj1 (IH mid mid' Hm)) as [b' Hb]; [eauto|].
        exists b'. apply in_exec_cons. eauto.
      * intros [b' Hb]. apply in_exec_cons in Hb; destruct Hb as [mid [Hs Hb]].
        destruct (step_same_text n b a mid Hn (same_text_sym _ _ Hab) Hs)
          as [mid' [Hs' Hm]].
        destruct (proj2 (IH mid' mid (same_text_sym _ _ Hm))) as [a' Ha];
          [eauto|].
        exists a'. apply in_exec_cons. eauto.
Qed.

(** [re.match] succeeds with the groups exactly when it does without. *)
Lemma re_match_erase (p : pattern) (s : str) :
  (exists m, re_match p s = Some m)
  <-> (exists m, re_match (erase p) s = Some m).
Proof.
  unfold re_match.
  assert (H := exec_erase p (start 0 s) (start 0 s) (conj eq_refl eq_refl)).
  split; intros [m Hm]; apply hd_error_in in Hm.
  - destruct (proj1 H (ex_intro _ m Hm)) as [b Hb]. eapply in_hd_error; eauto.
  - destruct (proj2 H (ex_intro _ m Hm)) as [b Hb]. eapply in_hd_error; eauto.
Qed.

(** ** The header grammar *)

Lemma app_cons_assoc {A : Type} (u : list A) (a : A) (v w : list A) :
  (u ++ a :: v) ++ w = u ++ a :: v ++ w.
Proof. now rewrite <- app_assoc. Qed.

Ltac flatten := repeat (rewrite <- ?app_assoc, ?app_cons_assoc; simpl).

Lemma header_groups_sound (w : str) (m : state) :
  In m (exec header_groups_re (start 0 w)) ->
  exists body tail t c z x,
    w = body ++ tail /\ (tail = [] \/ tail = [newline])
    /\ header_shape body t c z x
    /\ group m 1 = t /\ group m 2 = c /\ group m 3 = z
    /\ group m 4 = txt "RHC-" ++ [x].
Proof.
  intros H. expand header_groups_re. unfold start in H. exec_inv H.
  exists (header_text u u0 u1 u2 u3 u4 u5 x), r, u, u1, u4, x.
  split; [unfold header_text; cbn [txt list_ascii_of_string]; flatten; reflexivity|].
  split; [assumption|].
  split.
  { exists u0, u2, u3, u5. unfold many, exactly.
    apply Nat.leb_le in Hhi4. repeat split; try assumption; lia. }
  subst m. unfold group. cbn [caps lookup Nat.eqb].
  repeat split.
  - now apply firstn_read.
  - apply firstn_read. flatten. reflexivity.
  - now apply firstn_read.
  - now apply firstn_read.
Qed.

Lemma header_complete (w t c z : str) (x : ascii) :
  header_shape w t c z x -> exists m, In m (exec header_re (start 0 w)).
Proof.
  intros [s1 [s2 [s3 [s4 [-> H]]]]].
  destruct H as [[? ?] [[? ?] [[? ?] [[? ?] [[? ?] [[? ?] [[? ?] ?]]]]]]].
  expand header_re. unfold start, header_text. cbn [txt list_ascii_of_string app].
  exec_fwd.
Qed.

(** The two header patterns differ by the capturing parentheses only. *)
Lemma header_re_erase : erase header_groups_re = header_re.
Proof. reflexivity. Qed.

(** A trimmed line has no line feed for [$] to step over. *)
Lemma strip_tail (l body tail : str) :
  strip l = body ++ tail -> tail = [] \/ tail = [newline] ->
  strip l = body.
Proof.
  intros E [->| ->].
  - now rewrite app_nil_r in E.
  - apply strip_last in E. discriminate E.
Qed.

Lemma header_match_groups (l : str) (m : state) :
  re_match header_groups_re (strip l) = Some m ->
  exists t c z x,
    header_shape (strip l) t c z x
    /\ group m 1 = t /\ group m 2 = c /\ group m 3 = z
    /\ group m 4 = txt "RHC-" ++ [x].
Proof.
  intros H. apply hd_error_in, header_groups_sound in H.
  destruct H as [body [tail [t [c [z [x [E [T [S G]]]]]]]]].
  exists t, c, z, x. rewrite (strip_tail _ _ _ E T). now split.
Qed.

Lemma header_match_iff (l : str) :
  (exists m, re_match header_groups_re (strip l) = Some m)
  <-> is_entry_header l = true.
Proof.
  rewrite re_match_erase, header_re_erase. unfold is_entry_header.
  destruct (re_match header_re (strip l)); split; eauto.
  - intros [m H]. discriminate.
  - discriminate.
Qed.

Lemma is_entry_header_shape (l : str) :
  is_entry_header l = true <-> exists t c z x, header_shape (strip l) t c z x.
Proof.
  split.
  - intros H. apply header_match_iff in H as [m H].
    apply header_match_groups in H as [t [c [z [x [S _]]]]]. eauto.
  - intros [t [c [z [x S]]]]. apply header_complete in S as [m S].
    unfold is_entry_header, re_match.
    destruct (exec header_re (start 0 (strip l))); [destruct S|reflexivity].
Qed.

(** ** The record extractor, field by field *)

Lemma scan_care_of_sets (ls : list str) (e : entry) :
  scan_care_of ls e = set_care_of (care_of (scan_care_of ls e)) e.
Proof.
  induction ls as [|l ls IH]; cbn [scan_care_of].
  - now destruct e.
  - destruct (startswith (strip l) (txt "c/o:")); [reflexivity|exact IH].
Qed.

Lemma scan_care_of_indep (ls : list str) (e : entry) :
  care_of e = [] -> care_of (scan_care_of ls e) = care_of_view ls.
Proof.
  unfold care_of_view. intros He.
  induction ls as [|l ls IH]; cbn [scan_care_of]; [exact He|].
  destruct (startswith (strip l) (txt "c/o:")); [reflexivity|exact IH].
Qed.

(** The entry of a non-empty group, with every field given by its line. *)
Lemma parse_entry_lines_fields (l0 : str) (ls : list str) :
  let lines := l0 :: ls in
  let h := header_view l0 empty_entry in
  parse_entry_lines lines =
  mkEntry (town h) (county h) (zip_code h) (facility_type h)
    (at_line lines 1 (fun l => fst (name_view l)) [])
    (at_line lines 1 (fun l => snd (name_view l)) [])
    (trimmed_at lines 2)
    (at_line lines 3 phone_view [])
    (at_line lines 3 fax_view [])
    (trimmed_at lines 4)
    (trimmed_at lines 5)
    (care_of_view (skipn 6 lines)).
Proof.
  intros lines h. subst lines h.
  unfold parse_entry_lines, header_view, name_view, phone_view, fax_view,
    at_line, trimmed_at, line_at.
  destruct ls as [|l1 [|l2 [|l3 [|l4 [|l5 ls]]]]];
    cbn [length Nat.ltb Nat.leb nth nth_error skipn];
    repeat match goal with
      | |- context [re_match ?p ?s] => destruct (re_match p s)
      | |- context [re_search ?p ?s] => destruct (re_search p s)
      end;
    try reflexivity.
  all: rewrite scan_care_of_sets, scan_care_of_indep by reflexivity.
  all: reflexivity.
Qed.

(** ** The name and provider id line *)

Lemma app_same_length {A : Type} (a a' d d' : list A) :
  a ++ d = a' ++ d' -> length d = length d' -> a = a' /\ d = d'.
Proof.
  revert a'. induction a as [|x a IH]; intros [|y a'] E L; simpl in *.
  - now split.
  - subst d. rewrite length_cons, length_app in L. lia.
  - subst d'. rewrite length_cons, length_app in L. lia.
  - injection E as -> E. destruct (IH a' E L) as [-> ->]. now split.
Qed.

Lemma name_sound (w : str) (m : state) :
  In m (exec name_re (start 0 w)) ->
  exists n s d tail,
    w = (n ++ s ++ d) ++ tail /\ (tail = [] \/ tail = [newline])
    /\ many notnewline n /\ many isspace s /\ exactly 6 isdigit d
    /\ group m 1 = n /\ group m 2 = d.
Proof.
  intros H. expand name_re. unfold start in H. exec_inv H.
  exists u, u0, u1, r. apply Nat.leb_le in Hhi1.
  split; [flatten; reflexivity|]. split; [assumption|].
  unfold many, exactly. repeat split; try assumption; try lia.
  - subst m. unfold group. cbn [caps lookup Nat.eqb]. now apply firstn_read.
  - subst m. unfold group. cbn [caps lookup Nat.eqb]. now apply firstn_read.
Qed.

Lemma name_complete (n s d : str) :
  many notnewline n -> many isspace s -> exactly 6 isdigit d ->
  exists m, In m (exec name_re (start 0 (n ++ s ++ d))).
Proof.
  intros [? ?] [? ?] [? ?]. expand name_re. unfold start.
  rewrite <- (app_nil_r d). exec_fwd.
Qed.

(** All ways of cutting a text that starts with a visible character into
    name, whitespace and six digits give the same trimmed name. *)
Lemma name_cut_unique (n s d n' s' d' : str) :
  n ++ s ++ d = n' ++ s' ++ d' ->
  length d = length d' ->
  forallb isspace s = true -> forallb isspace s' = true ->
  rstrip n = rstrip n' /\ d = d'.
Proof.
  intros E L Hs Hs'. rewrite !app_assoc in E.
  destruct (app_same_length _ _ _ _ E L) as [E' ->]. split; [|reflexivity].
  rewrite <- (rstrip_spaces n s Hs), <- (rstrip_spaces n' s' Hs').
  now rewrite E'.
Qed.

Lemma strip_of_prefix (l n r : str) :
  strip l = n ++ r -> 1 <= length n -> strip n = rstrip n.
Proof.
  intros E L. destruct n as [|c n]; [simpl in L; lia|].
  simpl in E. apply strip_first in E.
  unfold strip. now rewrite (lstrip_fixed (c :: n) c n eq_refl E).
Qed.

Lemma name_view_match (l n s d : str) :
  strip l = n ++ s ++ d ->
  many notnewline n -> many isspace s -> exactly 6 isdigit d ->
  name_view l = (strip n, d).
Proof.
  intros E Hn Hs Hd.
  destruct (name_complete n s d Hn Hs Hd) as [m0 Hin]. rewrite <- E in Hin.
  unfold name_view, re_match.
  destruct (exec name_re (start 0 (strip l))) as [|m ms] eqn:X;
    [destruct Hin|]. cbn [hd_error].
  assert (Hm : In m (exec name_re (start 0 (strip l))))
    by (rewrite X; now left).
  apply name_sound in Hm.
  destruct Hm as [n' [s' [d' [tail [E' [T [Hn' [Hs' [Hd' [G1 G2]]]]]]]]]].
  apply strip_tail in E'; [|exact T].
  rewrite G1, G2.
  assert (U : rstrip n' = rstrip n /\ d' = d).
  { apply (name_cut_unique n' s' d' n s d).
    - congruence.
    - destruct Hd, Hd'. congruence.
    - apply Hs'.
    - apply Hs. }
  destruct U as [U ->].
  rewrite (strip_of_prefix l n' (s' ++ d) E') by apply Hn'.
  rewrite (strip_of_prefix l n (s ++ d) E) by apply Hn.
  now rewrite U.
Qed.

Lemma name_view_nomatch (l : str) :
  (forall n s d, strip l = n ++ s ++ d -> many notnewline n ->
                 many isspace s -> exactly 6 isdigit d -> False) ->
  name_view l = (strip l, []).
Proof.
  intros No. unfold name_view.
  destruct (re_match name_re (strip l)) as [m|] eqn:X; [|reflexivity].
  exfalso. apply hd_error_in, name_sound in X.
  destruct X as [n [s [d [tail [E [T [Hn [Hs [Hd _]]]]]]]]].
  apply strip_tail in E; [|exact T]. eapply No; eauto.
Qed.

(** ** The phone and fax line *)

Lemma phone_sound (w : str) (m : state) :
  In m (exec phone_re (start 0 w)) ->
  exists a b c,
    phone_shape w a b c /\ group m 1 = a /\ group m 2 = local_number b c.
Proof.
  intros H. expand phone_re. unfold start in H. exec_inv H.
  apply Nat.leb_le in Hhi, Hhi1, Hhi2.
  exists u, u1, u2. split.
  - exists u0, r. unfold local_number, exactly, spaces.
    split; [flatten; reflexivity|]. repeat split; try assumption; lia.
  - subst m. unfold group, local_number. cbn [caps lookup Nat.eqb].
    split; apply firstn_read; flatten; reflexivity.
Qed.

Lemma phone_complete (w a b c : str) :
  phone_shape w a b c -> exists m, In m (exec phone_re (start 0 w)).
Proof.
  intros [s [post [-> [[? ?] [? [[? ?] [? ?]]]]]]].
  expand phone_re. unfold start, local_number, spaces in *.
  rewrite <- app_assoc. cbn [app]. exec_fwd.
Qed.

Lemma app_same_prefix {A : Type} (a a' x x' : list A) :
  a ++ x = a' ++ x' -> length a = length a' -> a = a' /\ x = x'.
Proof.
  revert a'. induction a as [|y a IH]; intros [|y' a'] E L;
    simpl in *; try discriminate.
  - now split.
  - injection E as -> E. injection L as L.
    destruct (IH a' E L) as [-> ->]. now split.
Qed.

(** A whitespace run followed by a visible character ends where the
    character is. *)
Lemma spaces_then_visible (s s' : str) (c c' : ascii) (x x' : str) :
  s ++ c :: x = s' ++ c' :: x' ->
  spaces s -> spaces s' -> isspace c = false -> isspace c' = false ->
  s = s' /\ c :: x = c' :: x'.
Proof.
  intros E Hs Hs' Hc Hc'.
  assert (X : c :: x = c' :: x').
  { rewrite <- (lstrip_fixed (c :: x) c x eq_refl Hc).
    rewrite <- (lstrip_fixed (c' :: x') c' x' eq_refl Hc').
    rewrite <- (lstrip_spaces s (c :: x) Hs).
    rewrite <- (lstrip_spaces s' (c' :: x') Hs'). now rewrite E. }
  split; [|exact X]. rewrite X in E. now apply app_inv_tail in E.
Qed.

Lemma digit_not_space (c : ascii) : isdigit c = true -> isspace c = false.
Proof.
  destruct c as [[] [] [] [] [] [] [] []]; vm_compute; congruence.
Qed.

Lemma exactly_cons (n : nat) (cls : ascii -> bool) (u : str) :
  exactly (S n) cls u -> exists c v, u = c :: v /\ cls c = true.
Proof.
  intros [L F]. destruct u as [|c v]; [discriminate L|].
  simpl in F. apply andb_true_iff in F as [F _]. eauto.
Qed.

(** A line starts with at most one phone number. *)
Lemma phone_shape_unique (w a b c a' b' c' : str) :
  phone_shape w a b c -> phone_shape w a' b' c' ->
  a = a' /\ b = b' /\ c = c'.
Proof.
  intros [s [post [E [Ha [Hs [Hb Hc]]]]]]
         [s' [post' [E' [Ha' [Hs' [Hb' Hc']]]]]].
  rewrite E in E'. injection E' as E'.
  apply app_same_prefix in E' as [-> E']; [|destruct Ha, Ha'; congruence].
  injection E' as E'. unfold local_number in E'.
  destruct (exactly_cons _ _ _ Hb) as [x [v [Eb Hx]]].
  destruct (exactly_cons _ _ _ Hb') as [x' [v' [Eb' Hx']]].
  rewrite Eb, Eb' in E'. rewrite <- !app_assoc in E'. simpl in E'.
  apply spaces_then_visible in E' as [_ E'];
    try assumption; try now apply digit_not_space.
  change (x :: v ++ "-"%char :: c ++ post)
    with ((x :: v) ++ "-"%char :: c ++ post) in E'.
  change (x' :: v' ++ "-"%char :: c' ++ post')
    with ((x' :: v') ++ "-"%char :: c' ++ post') in E'.
  rewrite <- Eb, <- Eb' in E'.
  apply app_same_prefix in E' as [-> E']; [|destruct Hb, Hb'; congruence].
  injection E' as E'.
  apply app_same_prefix in E' as [-> _]; [|destruct Hc, Hc'; congruence].
  now repeat split.
Qed.

Lemma phone_view_match (l a b c : str) :
  phone_shape (strip l) a b c ->
  phone_view l = paren_fmt a (local_number b c).
Proof.
  intros S. destruct (phone_complete _ _ _ _ S) as [m0 Hin].
  unfold phone_view, re_match.
  destruct (exec phone_re (start 0 (strip l))) as [|m ms] eqn:X;
    [destruct Hin|]. cbn [hd_error].
  assert (Hm : In m (exec phone_re (start 0 (strip l))))
    by (rewrite X; now left).
  apply phone_sound in Hm as [a' [b' [c' [S' [-> ->]]]]].
  destruct (phone_shape_unique _ _ _ _ _ _ _ S S') as [-> [-> ->]].
  reflexivity.
Qed.

Lemma phone_view_nomatch (l : str) :
  (forall a b c, ~ phone_shape (strip l) a b c) -> phone_view l = [].
Proof.
  intros No. unfold phone_view.
  destruct (re_match phone_re (strip l)) as [m|] eqn:X; [|reflexivity].
  exfalso. apply hd_error_in, phone_sound in X.
  destruct X as [a [b [c [S _]]]]. exact (No a b c S).
Qed.

(** *** The fax number, searched along the line *)

Lemma search_from_some (p : pattern) (s : str) :
  forall i m,
    search_from p i s = Some m ->
    exists pre suf,
      s = pre ++ suf
      /\ In m (exec p (start (i + length pre) suf))
      /\ forall pre' suf',
           s = pre' ++ suf' -> length pre' < length pre ->
           exec p (start (i + length pre') suf') = [].
Proof.
  induction s as [|c s IH]; intros i m H; cbn [search_from] in H.
  - destruct (exec p (start i [])) as [|m' ms] eqn:X; [discriminate|].
    injection H as ->. exists [], []. simpl. rewrite Nat.add_0_r, X.
    repeat split; [now left|]. intros ? ? _ L. lia.
  - destruct (exec p (start i (c :: s))) as [|m' ms] eqn:X.
    + apply IH in H as [pre [suf [-> [Hin Hmin]]]].
      exists (c :: pre), suf. simpl. rewrite Nat.add_succ_r.
      repeat split; [exact Hin|].
      intros [|c' pre'] suf' E L; simpl in *.
      * subst suf'. now rewrite Nat.add_0_r.
      * injection E as -> E. rewrite Nat.add_succ_r.
        apply Hmin; [exact E|lia].
    + injection H as ->. exists [], (c :: s). simpl.
      rewrite Nat.add_0_r, X. repeat split; [now left|].
      intros ? ? _ L. lia.
Qed.

Lemma search_from_none (p : pattern) (s : str) :
  forall i,
    search_from p i s = None ->
    forall pre suf, s = pre ++ suf ->
                    exec p (start (i + length pre) suf) = [].
Proof.
  induction s as [|c s IH]; intros i H pre suf E; cbn [search_from] in H.
  - destruct (exec p (start i [])) as [|m' ms] eqn:X; [|discriminate].
    symmetry in E. apply app_eq_nil in E as [-> ->]. simpl.
    now rewrite Nat.add_0_r.
  - destruct (exec p (start i (c :: s))) as [|m' ms] eqn:X; [|discriminate].
    destruct pre as [|c' pre]; simpl in *.
    + subst suf. now rewrite Nat.add_0_r.
    + injection E as -> E. rewrite Nat.add_succ_r. now apply (IH (S i)).
Qed.

Lemma optional_of_rep (c : ascii) (u : str) :
  forallb (is_char c) u = true -> length u <= 1 -> optional c u.
Proof.
  destruct u as [|x [|y u]]; simpl; intros F L.
  - now left.
  - right. rewrite andb_true_r in F. apply Ascii.eqb_eq in F. now subst.
  - lia.
Qed.

Lemma rep_of_optional (c : ascii) (u : str) :
  optional c u -> forallb (is_char c) u = true /\ length u <= 1.
Proof.
  intros [->| ->]; simpl; [auto|].
  unfold is_char. rewrite Ascii.eqb_refl. auto.
Qed.

Lemma fax_sound (i : nat) (w : str) (m : state) :
  In m (exec fax_re (start i w)) ->
  exists a b c,
    fax_shape w [] a b c /\ group m 1 = a /\ group m 2 = local_number b c.
Proof.
  intros H. expand fax_re. unfold start in H. exec_inv H.
  apply Nat.leb_le in Hhi0, Hhi1, Hhi2, Hhi4, Hhi5.
  exists u1, u4, u5. split.
  - exists u, u0, u2, u3, r0. unfold local_number, exactly, spaces.
    split; [cbn [txt list_ascii_of_string]; flatten; reflexivity|].
    repeat split; try assumption; try lia.
    + now apply optional_of_rep.
    + now apply optional_of_rep.
  - subst m. unfold group, local_number. cbn [caps lookup Nat.eqb].
    split; apply firstn_read; flatten; reflexivity.
Qed.

Lemma fax_complete (i : nat) (w a b c : str) :
  fax_shape w [] a b c -> exists m, In m (exec fax_re (start i w)).
Proof.
  intros [s1 [lp [rp [s2 [post [-> H]]]]]].
  destruct H as [? [Hl [[? ?] [Hr [? [[? ?] [? ?]]]]]]].
  apply rep_of_optional in Hl as [? ?], Hr as [? ?].
  expand fax_re. unfold start, local_number, spaces in *.
  cbn [txt list_ascii_of_string]. rewrite <- (app_assoc b). cbn [app].
  exec_fwd.
Qed.

Lemma fax_shape_shift (pre suf a b c : str) :
  fax_shape (pre ++ suf) pre a b c <-> fax_shape suf [] a b c.
Proof.
  unfold fax_shape. split;
    intros [s1 [lp [rp [s2 [post [E H]]]]]]; exists s1, lp, rp, s2, post;
    (split; [|exact H]).
  - apply app_inv_head in E. exact E.
  - simpl in E. now rewrite E.
Qed.

Lemma fax_shape_split (w pre a b c : str) :
  fax_shape w pre a b c ->
  exists suf, w = pre ++ suf /\ fax_shape suf [] a b c.
Proof.
  intros S. assert (S' := S).
  destruct S' as [s1 [lp [rp [s2 [post [E _]]]]]].
  eexists. split; [exact E|]. rewrite E in S.
  now apply fax_shape_shift in S.
Qed.

(** The fax is the number of the leftmost "FAX:" that a number follows. *)
Lemma fax_view_match (l : str) :
  (exists pre a b c, fax_shape (strip l) pre a b c) ->
  exists pre a b c,
    fax_shape (strip l) pre a b c
    /\ (forall pre' a' b' c',
          fax_shape (strip l) pre' a' b' c' -> length pre <= length pre')
    /\ fax_view l = paren_fmt a (local_number b c).
Proof.
  intros [pre0 [a0 [b0 [c0 S0]]]]. unfold fax_view, re_search.
  destruct (search_from fax_re 0 (strip l)) as [m|] eqn:X.
  - apply search_from_some in X as [pre [suf [E [Hin Hmin]]]].
    apply fax_sound in Hin as [a [b [c [S [-> ->]]]]].
    exists pre, a, b, c. rewrite E. split; [now apply fax_shape_shift|].
    split; [|reflexivity].
    intros pre' a' b' c' S'. rewrite <- E in S'.
    apply fax_shape_split in S' as [suf' [E' S']].
    destruct (Nat.le_gt_cases (length pre) (length pre')) as [L|L];
      [exact L|exfalso].
    specialize (Hmin pre' suf' E' L).
    destruct (fax_complete (0 + length pre') _ _ _ _ S') as [m' Hm'].
    rewrite Hmin in Hm'. destruct Hm'.
  - exfalso. apply fax_shape_split in S0 as [suf [E S]].
    assert (N := search_from_none _ _ _ X pre0 suf E).
    destruct (fax_complete (0 + length pre0) _ _ _ _ S) as [m' Hm'].
    rewrite N in Hm'. destruct Hm'.
Qed.

Lemma fax_view_nomatch (l : str) :
  (forall pre a b c, ~ fax_shape (strip l) pre a b c) -> fax_view l = [].
Proof.
  intros No. unfold fax_view, re_search.
  destruct (search_from fax_re 0 (strip l)) as [m|] eqn:X; [|reflexivity].
  exfalso. apply search_from_some in X as [pre [suf [E [Hin _]]]].
  apply fax_sound in Hin as [a [b [c [S _]]]].
  apply (No pre a b c). rewrite E. now apply fax_shape_shift.
Qed.

(** ** The page scan *)

Lemma flush_close (entries : list entry) (current : list str) :
  flush entries current =
  entries ++ filter valid (map parse_entry_lines (close_group [] current)).
Proof.
  unfold flush, close_group, valid. destruct current as [|l ls].
  - simpl. now rewrite app_nil_r.
  - cbn [app map filter].
    destruct (nonempty (facility_name (parse_entry_lines (l :: ls))));
      [reflexivity|now rewrite app_nil_r].
Qed.

Lemma close_group_app (closed : list (list str)) (current : list str) :
  close_group closed current = closed ++ close_group [] current.
Proof. destruct current; simpl; [now rewrite app_nil_r|reflexivity]. Qed.

(** The entries are the valid records of the closed groups. *)
Lemma scan_groups (base : list entry) (ls : list str) :
  forall closed current,
    fold_left scan_line ls
      (base ++ filter valid (map parse_entry_lines closed), current) =
    let (closed', current') := fold_left group_line ls (closed, current) in
    (base ++ filter valid (map parse_entry_lines closed'), current').
Proof.
  induction ls as [|l ls IH]; intros closed current; [reflexivity|].
  cbn [fold_left]. unfold scan_line at 2, group_line at 2.
  destruct (is_total_line l); [apply IH|].
  destruct (is_entry_header l).
  - rewrite flush_close, <- app_assoc, <- filter_app, <- map_app.
    rewrite <- close_group_app. apply IH.
  - destruct current; apply IH.
Qed.

Lemma parse_page_groups (entries : list entry) (lines : list str) :
  parse_page entries lines =
  entries ++ filter valid (map parse_entry_lines (page_groups lines)).
Proof.
  unfold parse_page, page_groups.
  assert (H := scan_groups entries (skipn 7 lines) [] []).
  cbn [map filter] in H. rewrite app_nil_r in H. rewrite H.
  destruct (fold_left group_line (skipn 7 lines) ([], [])) as [closed cur].
  rewrite flush_close, <- app_assoc, <- filter_app, <- map_app.
  now rewrite <- close_group_app.
Qed.

Lemma segment_page_groups (lines : list str) :
  segment_page lines =
  filter valid (map parse_entry_lines (page_groups lines)).
Proof. unfold segment_page. now rewrite parse_page_groups. Qed.

(** Total lines leave the scan where it is. *)
Lemma scan_skips_totals (ls : list str) :
  forall st,
    fold_left scan_line ls st =
    fold_left scan_line (filter (fun l => negb (is_total_line l)) ls) st.
Proof.
  induction ls as [|l ls IH]; intros [entries current]; [reflexivity|].
  cbn [fold_left filter]. destruct (is_total_line l) eqn:T; cbn [negb].
  - unfold scan_line at 2. rewrite T. apply IH.
  - cbn [fold_left]. apply IH.
Qed.

Lemma skipn_without_totals (lines : list str) :
  skipn 7 (without_totals lines) =
  filter (fun l => negb (is_total_line l)) (skipn 7 lines).
Proof.
  unfold without_totals.
  destruct (Nat.le_gt_cases 7 (length lines)) as [L|L].
  - rewrite skipn_app, length_firstn, Nat.min_l by exact L.
    rewrite Nat.sub_diag.
    rewrite (skipn_all2 (n := 7) (firstn 7 lines));
      [reflexivity|rewrite length_firstn; lia].
  - rewrite (skipn_all2 lines) by lia. cbn [filter]. rewrite app_nil_r.
    apply skipn_all2. rewrite length_firstn. lia.
Qed.

Lemma group_line_headed (ls : list str) :
  forall closed current,
    Forall headed closed -> (current = [] \/ headed current) ->
    Forall headed
      (let (closed', current') := fold_left group_line ls (closed, current)
       in close_group closed' current').
Proof.
  induction ls as [|l ls IH]; intros closed current Hc Hcur.
  - cbn [fold_left]. destruct Hcur as [->|Hcur]; [exact Hc|].
    destruct current; [exact Hc|]. cbn [close_group].
    apply Forall_app. split; [exact Hc|]. now constructor.
  - cbn [fold_left]. unfold group_line at 2.
    destruct (is_total_line l) eqn:T; [now apply IH|].
    destruct (is_entry_header l) eqn:Hh.
    + apply IH.
      * destruct Hcur as [->|Hcur]; [exact Hc|].
        destruct current; [exact Hc|]. cbn [close_group].
        apply Forall_app. split; [exact Hc|]. now constructor.
      * right. split; [eauto|]. now constructor.
    + destruct current as [|c cs]; [now apply IH|].
      apply IH; [exact Hc|]. right.
      destruct Hcur as [D|[[h [hs [E Hh']]] F]]; [discriminate D|].
      split.
      * injection E as -> ->. exists h, (hs ++ [l]). now split.
      * apply Forall_app. split; [exact F|]. now constructor.
Qed.

Lemma page_groups_headed (lines : list str) :
  Forall headed (page_groups lines).
Proof.
  unfold page_groups. apply group_line_headed; [constructor|now left].
Qed.

(** ** Header fields of an entry *)

Lemma strip_parts (s : str) :
  exists w w', s = w ++ strip s ++ w' /\ spaces w /\ spaces w'.
Proof.
  destruct (lstrip_suffix s) as [w [E F]].
  destruct (rstrip_prefix (lstrip s)) as [w' [E' F']].
  exists w, w'. unfold strip. rewrite <- E'. now repeat split.
Qed.

Lemma forallb_strip (cls : ascii -> bool) (s : str) :
  forallb cls s = true -> forallb cls (strip s) = true.
Proof.
  destruct (strip_parts s) as [w [w' [E _]]]. intros F.
  rewrite E, !forallb_app in F.
  apply andb_true_iff in F as [_ F]. now apply andb_true_iff in F as [F _].
Qed.

Lemma upper_not_space (c : ascii) : isupper c = true -> isspace c = false.
Proof.
  destruct c as [[] [] [] [] [] [] [] []]; vm_compute; congruence.
Qed.

(** Trimming a text that starts with a visible character keeps that
    character. *)
Lemma strip_visible_head (c : ascii) (u : str) :
  isspace c = false -> exists v, strip (c :: u) = c :: v.
Proof.
  intros Hc. unfold strip. rewrite (lstrip_fixed (c :: u) c u eq_refl Hc).
  destruct (rstrip_prefix (c :: u)) as [w [E F]].
  destruct (rstrip (c :: u)) as [|d v] eqn:R.
  - simpl in E. subst w. simpl in F. rewrite Hc in F. discriminate F.
  - injection E as <- _. eauto.
Qed.

Lemma header_text_strip (c0 : ascii) (t' s1 c s2 s3 z s4 : str) (x : ascii) :
  isspace c0 = false -> isspace x = false ->
  strip (header_text (c0 :: t') s1 c s2 s3 z s4 x)
  = header_text (c0 :: t') s1 c s2 s3 z s4 x.
Proof.
  intros H0 Hx. unfold header_text. cbn [app].
  apply (strip_fixed c0 x _
           (c0 :: t' ++ s1 ++ "("%char :: c ++ ")"%char :: s2
              ++ "-"%char :: s3 ++ z ++ s4 ++ txt "RHC-") H0 Hx).
  cbn [txt list_ascii_of_string]. flatten. reflexivity.
Qed.

(** What the extractor stores for a line the classifier accepts. *)
Lemma header_view_accepts (l : str) (e : entry) :
  is_entry_header l = true ->
  exists t c z x c0 t',
    header_shape (strip l) t c z x
    /\ t = c0 :: t' /\ isspace c0 = false
    /\ town (header_view l e) = strip t
    /\ county (header_view l e) = strip c
    /\ zip_code (header_view l e) = z
    /\ facility_type (header_view l e) = txt "RHC-" ++ [x].
Proof.
  intros H. apply header_match_iff in H as [m H]. unfold header_view.
  rewrite H. apply header_match_groups in H.
  destruct H as [t [c [z [x [S [G1 [G2 [G3 G4]]]]]]]].
  assert (S' := S). destruct S' as [s1 [s2 [s3 [s4 [E [[Lt _] _]]]]]].
  destruct t as [|c0 t']; [simpl in Lt; lia|].
  unfold header_text in E. simpl in E. apply strip_first in E.
  exists (c0 :: t'), c, z, x, c0, t'. cbn [set_header town county zip_code
    facility_type]. rewrite G1, G2, G3, G4. now repeat split.
Qed.

Lemma header_view_populated (l : str) (e : entry) :
  is_entry_header l = true -> header_populated (header_view l e).
Proof.
  intros H. unfold header_populated. destruct (header_view_accepts l e H)
    as [t [c [z [x [c0 [t' [S [Et [H0 [-> [_ [-> ->]]]]]]]]]]]].
  destruct S as [s1 [s2 [s3 [s4 [_ [_ [_ [_ [_ [_ [Hz [_ Hx]]]]]]]]]]]].
  split; [|split; [exact Hz|eauto]].
  subst t. destruct (strip_visible_head c0 t' H0) as [v ->]. discriminate.
Qed.

(** The fields of an accepted header, written back with single spaces,
    make a header again when the county has a letter. *)
Lemma header_round_trip (l : str) (e : entry) :
  is_entry_header l = true ->
  county (header_view l e) <> [] ->
  is_entry_header (header_line_of (header_view l e)) = true.
Proof.
  intros H Hc. destruct (header_view_accepts l e H)
    as [t [c [z [x [c0 [t' [S [Et [H0 [Tn [Cn [Zn Fn]]]]]]]]]]]].
  destruct S as [s1 [s2 [s3 [s4 [_ [[_ Ft] [_ [[_ Fc] [_ [_ [Hz [_ Hx]]]]]]]]]]]].
  unfold header_line_of. rewrite Tn, Zn, Fn. rewrite Cn in Hc |- *.
  subst t. destruct (strip_visible_head c0 t' H0) as [v Ev].
  assert (Ft' := forallb_strip _ _ Ft). assert (Fc' := forallb_strip _ _ Fc).
  rewrite Ev in Ft' |- *.
  apply is_entry_header_shape.
  exists (c0 :: v), (strip c), z, x.
  change ((c0 :: v) ++ txt " (" ++ strip c ++ txt ") - " ++ z ++ txt " "
            ++ txt "RHC-" ++ [x])
    with (header_text (c0 :: v) [" "%char] (strip c) [" "%char] [" "%char]
            z [" "%char] x).
  rewrite header_text_strip by (try assumption; now apply upper_not_space).
  exists [" "%char], [" "%char], [" "%char], [" "%char].
  split; [reflexivity|]. unfold many.
  repeat split; try assumption; try reflexivity; try (simpl; lia).
  - destruct (strip c); [congruence|simpl; lia].
  - apply Hz.
  - apply Hz.
Qed.

(** ** The care-of line *)

Lemma care_of_view_cons (l : str) (ls : list str) :
  care_of_view (l :: ls) =
  if startswith (strip l) (txt "c/o:")
  then strip (skipn 4 (strip l))
  else care_of_view ls.
Proof.
  unfold care_of_view. cbn [scan_care_of].
  now destruct (startswith (strip l) (txt "c/o:")).
Qed.

Lemma care_of_view_first (ls : list str) :
  forall i l,
    nth_error ls i = Some l ->
    startswith (strip l) (txt "c/o:") = true ->
    (forall j l', j < i -> nth_error ls j = Some l' ->
                  startswith (strip l') (txt "c/o:") = false) ->
    care_of_view ls = strip (skipn 4 (strip l)).
Proof.
  induction ls as [|x ls IH]; intros [|i] l E M B; try discriminate E;
    rewrite care_of_view_cons.
  - injection E as ->. now rewrite M.
  - rewrite (B 0 x) by (try reflexivity; lia).
    apply (IH i l E M). intros j l' Hj Ej. apply (B (S j) l'); [lia|exact Ej].
Qed.

Lemma care_of_view_none (ls : list str) :
  (forall j l', nth_error ls j = Some l' ->
                startswith (strip l') (txt "c/o:") = false) ->
  care_of_view ls = [].
Proof.
  induction ls as [|x ls IH]; intros B; [reflexivity|].
  rewrite care_of_view_cons, (B 0 x eq_refl).
  apply IH. intros j l' Ej. exact (B (S j) l' Ej).
Qed.

(** ** Fields read from the line at a given index *)

Lemma fields_at_1 (lines : list str) (l : str) :
  nth_error lines 1 = Some l ->
  facility_name (parse_entry_lines lines) = fst (name_view l)
  /\ provider_id (parse_entry_lines lines) = snd (name_view l).
Proof.
  intros H. destruct lines as [|l0 ls]; [discriminate H|].
  rewrite parse_entry_lines_fields. cbn [facility_name provider_id].
  unfold at_line. rewrite H. now split.
Qed.

Lemma fields_at_3 (lines : list str) (l : str) :
  nth_error lines 3 = Some l ->
  phone (parse_entry_lines lines) = phone_view l
  /\ fax (parse_entry_lines lines) = fax_view l.
Proof.
  intros H. destruct lines as [|l0 ls]; [discriminate H|].
  rewrite parse_entry_lines_fields. cbn [phone fax].
  unfold at_line. rewrite H. now split.
Qed.

Lemma occurs_here (p s : str) : startswith s p = true -> occurs p s = true.
Proof. intros H. destruct s; cbn [occurs]; now rewrite H. Qed.

Lemma occurs_app (p a b : str) : occurs p (a ++ p ++ b) = true.
Proof.
  induction a as [|x a IH]; cbn [app].
  - apply occurs_here, startswith_app.
  - cbn [occurs]. rewrite IH. apply orb_true_r.
Qed.

Lemma care_of_field (lines : list str) :
  care_of (parse_entry_lines lines) = care_of_view (skipn 6 lines).
Proof.
  destruct lines as [|l0 ls]; [reflexivity|].
  now rewrite parse_entry_lines_fields.
Qed.

Lemma short_field_empty (lines : list str) (f : field) :
  length lines <= line_index f -> get f (parse_entry_lines lines) = [].
Proof.
  intros H. destruct lines as [|l0 ls]; [now destruct f|].
  rewrite parse_entry_lines_fields.
  destruct f; cbn [get line_index town county zip_code facility_type
                   facility_name provider_id address phone fax licensee
                   administrator care_of] in *;
    try (cbn [length] in H; lia);
    unfold at_line, trimmed_at;
    try (rewrite (proj2 (nth_error_None _ _) H); reflexivity).
  rewrite skipn_all2 by exact H. reflexivity.
Qed.

(** ** Entries of a page *)

Lemma nonempty_iff (s : str) : nonempty s = true <-> s <> [].
Proof. destruct s; simpl; split; congruence. Qed.

Lemma blank_name_line (l : str) : strip l = [] -> name_view l = ([], []).
Proof.
  intros E. rewrite name_view_nomatch, E; [reflexivity|].
  intros n s d En [Ln _] _ _. rewrite E in En.
  destruct n; [simpl in Ln; lia|discriminate En].
Qed.

Lemma groups_skip_totals (ls : list str) :
  forall st,
    fold_left group_line ls st =
    fold_left group_line (filter (fun l => negb (is_total_line l)) ls) st.
Proof.
  induction ls as [|l ls IH]; intros [closed current]; [reflexivity|].
  cbn [fold_left filter]. destruct (is_total_line l) eqn:T; cbn [negb].
  - unfold group_line at 2. rewrite T. apply IH.
  - cbn [fold_left]. apply IH.
Qed.

Lemma page_groups_without_totals (lines : list str) :
  page_groups lines = page_groups (without_totals lines).
Proof.
  unfold page_groups.
  now rewrite skipn_without_totals, <- groups_skip_totals.
Qed.

Lemma header_fields_of_group (l : str) (ls : list str) :
  let e := parse_entry_lines (l :: ls) in
  let h := header_view l empty_entry in
  town e = town h /\ county e = county h
  /\ zip_code e = zip_code h /\ facility_type e = facility_type h.
Proof. cbv zeta. rewrite parse_entry_lines_fields. now repeat split. Qed.

Lemma short_page (entries : list entry) (lines : list str) :
  length lines <= 7 -> parse_page entries lines = entries.
Proof.
  intros H. unfold parse_page. now rewrite skipn_all2 by exact H.
Qed.

(** ** Fields that hold a line *)

Lemma startswith_prefix (u r p : str) :
  startswith (u ++ r) p = false -> startswith u p = false.
Proof.
  intros H. destruct (startswith u p) eqn:E; [|reflexivity].
  apply startswith_iff in E as [v ->].
  rewrite <- app_assoc, startswith_app in H. discriminate H.
Qed.

(** The name is the beginning of its trimmed line. *)
Lemma name_view_prefix (l : str) :
  exists r, strip l = fst (name_view l) ++ r.
Proof.
  unfold name_view.
  destruct (re_match name_re (strip l)) as [m|] eqn:X; cbn [fst].
  - apply hd_error_in, name_sound in X.
    destruct X as [n [s [d [tail [E [T [Hn [_ [_ [G _]]]]]]]]]].
    apply strip_tail in E; [|exact T]. rewrite G.
    rewrite (strip_of_prefix l n (s ++ d) E) by apply Hn.
    destruct (rstrip_prefix n) as [w [En _]].
    exists (w ++ s ++ d). rewrite E, En at 1. now rewrite <- app_assoc.
  - exists []. now rewrite app_nil_r.
Qed.

Lemma trimmed_at_in (g : list str) (i : nat) :
  trimmed_at g i = [] \/ exists l, In l g /\ trimmed_at g i = strip l.
Proof.
  unfold trimmed_at. destruct (nth_error g i) as [l|] eqn:E; [|now left].
  right. exists l. split; [now apply nth_error_In in E|reflexivity].
Qed.

(** In an entry read from lines that are no total lines, the fields that
    hold a line do not start with "Total Facilities:". *)
Lemma line_fields_not_total (g : list str) (f : field) :
  Forall (fun l => is_total_line l = false) g ->
  In f [Facility_name; Address; Licensee; Administrator] ->
  startswith (get f (parse_entry_lines g)) (txt "Total Facilities:") = false.
Proof.
  intros F Hf. rewrite Forall_forall in F.
  destruct g as [|l0 ls]; [now destruct f|].
  rewrite parse_entry_lines_fields.
  assert (T : forall i,
             startswith (trimmed_at (l0 :: ls) i) (txt "Total Facilities:")
             = false).
  { intros i. destruct (trimmed_at_in (l0 :: ls) i) as [->|[l [Hl ->]]];
      [reflexivity|exact (F l Hl)]. }
  destruct Hf as [<-|[<-|[<-|[<-|[]]]]];
    cbn [get facility_name address licensee administrator]; try apply T.
  unfold at_line. destruct (nth_error (l0 :: ls) 1) as [l|] eqn:E;
    [|reflexivity].
  destruct (name_view_prefix l) as [r Er].
  apply (startswith_prefix _ r). rewrite <- Er.
  apply nth_error_In in E. exact (F l E).
Qed.

(** * The claims *)
(** C1, as the code has it: [is_entry_header] accepts a line exactly when
    the trimmed line is, from start to end, a town of one or more uppercase
    letters, whitespace characters or apostrophes, one or more whitespace
    characters, a parenthesized county of one or more uppercase letters or
    whitespace characters, a hyphen with one or more whitespace characters
    on each side, exactly five digits, one or more whitespace characters
    and "RHC-" with one uppercase letter.  It rejects the empty line, and
    an accepted line has the parenthesized county, the hyphen between
    whitespace and the trailing type. *)
Theorem is_entry_header_grammar :
  (forall line,
      is_entry_header line = true
      <-> exists t c z x, header_shape (strip line) t c z x)
  /\ is_entry_header [] = false
  /\ (forall line,
         is_entry_header line = true ->
         (exists u c v,
             strip line = u ++ "("%char :: c ++ ")"%char :: v
             /\ many county_char c)
         /\ (exists u s s' v,
               strip line = u ++ s ++ "-"%char :: s' ++ v
               /\ many isspace s /\ many isspace s')
         /\ (exists u x,
               strip line = u ++ txt "RHC-" ++ [x] /\ isupper x = true)).
Proof.
  split; [exact is_entry_header_shape|]. split; [reflexivity|].
  intros line H. apply is_entry_header_shape in H.
  destruct H as [t [c [z [x [s1 [s2 [s3 [s4 [E H]]]]]]]]].
  destruct H as [_ [_ [Hc [H2 [H3 [_ [_ Hx]]]]]]].
  unfold header_text in E. repeat split.
  - exists (t ++ s1), c, (s2 ++ "-"%char :: s3 ++ z ++ s4 ++ txt "RHC-" ++ [x]).
    split; [rewrite E; flatten; reflexivity|exact Hc].
  - exists (t ++ s1 ++ "("%char :: c ++ [")"%char]), s2, s3,
      (z ++ s4 ++ txt "RHC-" ++ [x]).
    split; [rewrite E; flatten; reflexivity|now split].
  - exists (t ++ s1 ++ "("%char :: c ++ ")"%char :: s2 ++ "-"%char :: s3
              ++ z ++ s4), x.
    split; [rewrite E; flatten; reflexivity|exact Hx].
Qed.

Lemma is_entry_header_grammar_witness :
  is_entry_header (txt "ADAMS (GAGE) - 68301 RHC-C") = true
  /\ exists t c z x,
       header_shape (strip (txt "ADAMS (GAGE) - 68301 RHC-C")) t c z x.
Proof.
  split; [vm_compute; reflexivity|].
  apply (proj1 (proj1 is_entry_header_grammar _)). vm_compute. reflexivity.
Defined.

(** C1 as stated fails: a line whose hyphen stands between two tabs has no
    " - " in it and is accepted. *)
Lemma tabbed_header_accepted :
  is_entry_header tabbed_header = true
  /\ ~ (exists a b, tabbed_header = a ++ txt " - " ++ b).
Proof.
  split; [vm_compute; reflexivity|].
  intros [a [b E]].
  assert (H : occurs (txt " - ") tabbed_header = true)
    by (rewrite E; apply occurs_app).
  vm_compute in H. discriminate H.
Qed.

(** C2, as the code has it: when the line at index 3 exists, [phone] is
    "(AAA) NNN-NNNN" when the trimmed line starts with "(AAA)", any
    whitespace and "NNN-NNNN", and empty when it does not; [fax] is the
    number, in the same form, of the leftmost "FAX:" that is followed by
    any whitespace, an optional "(", 3 digits, an optional ")", any
    whitespace and "NNN-NNNN", and empty when there is none.  The two lines
    of the specification give the values it names. *)
Theorem phone_fax_canonical :
  (forall lines l,
      nth_error lines 3 = Some l ->
      let e := parse_entry_lines lines in
      (forall a b c,
          phone_shape (strip l) a b c ->
          phone e = paren_fmt a (local_number b c))
      /\ ((forall a b c, ~ phone_shape (strip l) a b c) -> phone e = [])
      /\ ((exists pre a b c, fax_shape (strip l) pre a b c) ->
          exists pre a b c,
            fax_shape (strip l) pre a b c
            /\ (forall pre' a' b' c',
                   fax_shape (strip l) pre' a' b' c' ->
                   length pre <= length pre')
            /\ fax e = paren_fmt a (local_number b c))
      /\ ((forall pre a b c, ~ fax_shape (strip l) pre a b c) ->
          fax e = []))
  /\ (forall lines,
         nth_error lines 3 = Some (txt "(308) 962-8495 FAX:(308) 962-7916") ->
         phone (parse_entry_lines lines) = txt "(308) 962-8495"
         /\ fax (parse_entry_lines lines) = txt "(308) 962-7916")
  /\ (forall lines,
         nth_error lines 3 = Some (txt "(402) 988-2188 FAX:") ->
         phone (parse_entry_lines lines) = txt "(402) 988-2188"
         /\ fax (parse_entry_lines lines) = []).
Proof.
  split; [|split].
  - intros lines l H e. subst e.
    destruct (fields_at_3 lines l H) as [-> ->].
    split; [apply phone_view_match|].
    split; [apply phone_view_nomatch|].
    split; [apply fax_view_match|apply fax_view_nomatch].
  - intros lines H. destruct (fields_at_3 lines _ H) as [-> ->].
    split; vm_compute; reflexivity.
  - intros lines H. destruct (fields_at_3 lines _ H) as [-> ->].
    split; vm_compute; reflexivity.
Qed.

Lemma phone_fax_canonical_witness :
  phone (parse_entry_lines arapahoe_lines)
  = paren_fmt (txt "308") (local_number (txt "962") (txt "8495"))
  /\ fax (parse_entry_lines arapahoe_lines) = txt "(308) 962-7916".
Proof.
  split.
  - apply (proj1 (proj1 phone_fax_canonical arapahoe_lines _ eq_refl)).
    exists [" "%char], (txt " FAX:(308) 962-7916").
    repeat split; vm_compute; reflexivity.
  - apply (proj1 (proj2 phone_fax_canonical) arapahoe_lines eq_refl).
Defined.

(** C2 as stated fails: the pattern of the specification has no whitespace
    between "FAX:" and the number, so it occurs nowhere in a line that has
    a space there, and the fax of that line is set all the same. *)
Lemma fax_after_space_is_read :
  re_search claimed_fax_re (strip fax_spaced_line) = None
  /\ fax (parse_entry_lines
            [txt "ARAPAHOE (FURNAS) - 68922 RHC-C";
             txt "ARAPAHOE MEDICAL CLINIC 283976";
             txt "P.O. BOX 389, 305 NEBRASKA AVENUE";
             fax_spaced_line])
     = txt "(308) 962-7916".
Proof. repeat split; vm_compute; reflexivity. Qed.

(** C3, as the code has it: when the line at index 1 exists and its
    trimmed text ends in whitespace and exactly six digits after a
    non-empty name without line feed, [facility_name] is that name,
    trimmed, and [provider_id] the six digits; when the trimmed text has no
    such ending, [facility_name] is the whole trimmed line and
    [provider_id] is empty.  "ADAMS PRIMARY CARE 283499" gives
    "ADAMS PRIMARY CARE" and "283499". *)
Theorem name_id_split :
  (forall lines l,
      nth_error lines 1 = Some l ->
      let e := parse_entry_lines lines in
      (forall n s d,
          strip l = n ++ s ++ d ->
          many notnewline n -> many isspace s -> exactly 6 isdigit d ->
          facility_name e = strip n /\ provider_id e = d)
      /\ ((forall n s d,
              strip l = n ++ s ++ d ->
              many notnewline n -> many isspace s -> exactly 6 isdigit d ->
              False) ->
          facility_name e = strip l /\ provider_id e = []))
  /\ (forall lines,
         nth_error lines 1 = Some (txt "ADAMS PRIMARY CARE 283499") ->
         facility_name (parse_entry_lines lines) = txt "ADAMS PRIMARY CARE"
         /\ provider_id (parse_entry_lines lines) = txt "283499").
Proof.
  split.
  - intros lines l H e. subst e. destruct (fields_at_1 lines l H) as [-> ->].
    split.
    + intros n s d E Hn Hs Hd. now rewrite (name_view_match l n s d E Hn Hs Hd).
    + intros No. now rewrite (name_view_nomatch l No).
  - intros lines H. destruct (fields_at_1 lines _ H) as [-> ->].
    split; vm_compute; reflexivity.
Qed.

Lemma name_id_split_witness :
  facility_name (parse_entry_lines adams_lines)
  = strip (txt "ADAMS PRIMARY CARE")
  /\ provider_id (parse_entry_lines adams_lines) = txt "283499".
Proof.
  apply (proj1 (proj1 name_id_split adams_lines _ eq_refl)
           (txt "ADAMS PRIMARY CARE") (txt " ") (txt "283499")).
  - vm_compute. reflexivity.
  - split; [vm_compute; lia|vm_compute; reflexivity].
  - split; [vm_compute; lia|vm_compute; reflexivity].
  - split; vm_compute; reflexivity.
Defined.

(** C3 as stated fails: the name "A<LF>B" is non-empty text before a
    whitespace-separated token of six digits, and the line is not split. *)
Lemma newline_in_name_is_not_split :
  strip newline_name_line = newline_name ++ txt " " ++ txt "123456"
  /\ newline_name <> []
  /\ many isspace (txt " ") /\ exactly 6 isdigit (txt "123456")
  /\ facility_name
       (parse_entry_lines [txt "ADAMS (GAGE) - 68301 RHC-C"; newline_name_line])
     <> strip newline_name
  /\ provider_id
       (parse_entry_lines [txt "ADAMS (GAGE) - 68301 RHC-C"; newline_name_line])
     = [].
Proof.
  split; [vm_compute; reflexivity|]. split; [discriminate|].
  split; [split; [vm_compute; lia|reflexivity]|].
  split; [split; reflexivity|].
  split; [vm_compute; discriminate|vm_compute; reflexivity].
Qed.

(** C4: [parse_entry_lines] is defined on every sequence of lines and
    always yields an entry with its twelve fields; the empty sequence gives
    the entry with every field empty, and a field is empty whenever the
    sequence is too short to hold the line the field is read from. *)
Theorem parse_entry_lines_total :
  parse_entry_lines [] = empty_entry
  /\ (forall f, get f empty_entry = [])
  /\ (forall lines,
         let e := parse_entry_lines lines in
         e = mkEntry (get Town e) (get County e) (get Zip_code e)
               (get Facility_type e) (get Facility_name e)
               (get Provider_id e) (get Address e) (get Phone e)
               (get Fax e) (get Licensee e) (get Administrator e)
               (get Care_of e))
  /\ (forall lines f,
         length lines <= line_index f ->
         get f (parse_entry_lines lines) = []).
Proof.
  split; [reflexivity|]. split; [now intros []|].
  split; [intros lines e; now destruct e|]. exact short_field_empty.
Qed.

Lemma parse_entry_lines_total_witness :
  get Address (parse_entry_lines [txt "ADAMS (GAGE) - 68301 RHC-C";
                                  txt "ADAMS PRIMARY CARE 283499"]) = [].
Proof.
  apply (proj2 (proj2 (proj2 parse_entry_lines_total))). simpl. lia.
Defined.

(** C8: [care_of] is read from the first line at index 6 or later whose
    trimmed text starts with "c/o:", as the trimmed rest after those four
    characters; it is empty when no line from index 6 on starts so,
    whatever the lines below index 6 are. *)
Theorem care_of_first_marker :
  forall lines,
    let e := parse_entry_lines lines in
    (forall i l,
        6 <= i -> nth_error lines i = Some l ->
        startswith (strip l) (txt "c/o:") = true ->
        (forall j l',
            6 <= j -> j < i -> nth_error lines j = Some l' ->
            startswith (strip l') (txt "c/o:") = false) ->
        care_of e = strip (skipn 4 (strip l)))
    /\ ((forall j l',
            6 <= j -> nth_error lines j = Some l' ->
            startswith (strip l') (txt "c/o:") = false) ->
        care_of e = []).
Proof.
  intros lines e. subst e. rewrite care_of_field. split.
  - intros i l Hi E M B.
    apply (care_of_view_first (skipn 6 lines) (i - 6) l).
    + rewrite nth_error_skipn. now replace (6 + (i - 6)) with i by lia.
    + exact M.
    + intros j l' Hj Ej. rewrite nth_error_skipn in Ej.
      apply (B (6 + j) l'); [lia|lia|exact Ej].
  - intros B. apply care_of_view_none. intros j l' Ej.
    rewrite nth_error_skipn in Ej. apply (B (6 + j) l'); [lia|exact Ej].
Qed.

Lemma care_of_first_marker_witness :
  care_of (parse_entry_lines ainsworth_lines)
  = strip (skipn 4 (strip (txt "c/o: SHANNON M SORENSON AINSWORTH FAMILY CLINIC")))
  /\ care_of (parse_entry_lines
                [txt "AINSWORTH (BROWN) - 69210 RHC-C";
                 txt "c/o: SHANNON M SORENSON"]) = [].
Proof.
  split.
  - apply (proj1 (care_of_first_marker ainsworth_lines) 6 _ (le_n 6) eq_refl).
    + vm_compute. reflexivity.
    + intros j l' H1 H2. lia.
  - apply (proj2 (care_of_first_marker _)).
    intros [|[|j]] l' H E; try lia. destruct j; discriminate E.
Defined.

(** C5: the entries of a page are the records of the groups the scan
    closes, in order, with those of empty [facility_name] left out and
    nothing else; so a closed group has its record in the output exactly
    when that record's [facility_name] is not empty, and a group made of a
    header alone, or of a header and a blank line, has none. *)
Theorem only_named_entries_kept :
  (forall lines,
      segment_page lines
      = filter valid (map parse_entry_lines (page_groups lines)))
  /\ (forall lines g,
         In g (page_groups lines) ->
         (In (parse_entry_lines g) (segment_page lines)
          <-> facility_name (parse_entry_lines g) <> []))
  /\ (forall h, facility_name (parse_entry_lines [h]) = [])
  /\ (forall h l ls,
         strip l = [] -> facility_name (parse_entry_lines (h :: l :: ls)) = []).
Proof.
  split; [exact segment_page_groups|]. split; [|split].
  - intros lines g Hg. rewrite segment_page_groups, filter_In.
    unfold valid. rewrite nonempty_iff. split; [tauto|].
    intros H. split; [|exact H]. now apply in_map.
  - intros h. now rewrite parse_entry_lines_fields.
  - intros h l ls E.
    destruct (fields_at_1 (h :: l :: ls) l eq_refl) as [-> _].
    now rewrite blank_name_line.
Qed.

Lemma only_named_entries_kept_witness :
  In (parse_entry_lines adams_lines) (segment_page two_entry_page)
  /\ facility_name
       (parse_entry_lines [txt "ADAMS (GAGE) - 68301 RHC-C"; txt "  "]) = [].
Proof.
  split.
  - apply (proj1 (proj2 only_named_entries_kept) two_entry_page adams_lines).
    + vm_compute. left. reflexivity.
    + vm_compute. discriminate.
  - apply (proj2 (proj2 (proj2 only_named_entries_kept))).
    vm_compute. reflexivity.
Defined.

(** C6, as the code has it: for an entry built from a group whose first
    line is accepted as a header and whose extracted county is not empty,
    the line "{town} ({county}) - {zip_code} {facility_type}" is accepted
    as a header again. *)
Theorem header_fields_round_trip :
  forall l ls,
    is_entry_header l = true ->
    let e := parse_entry_lines (l :: ls) in
    county e <> [] ->
    is_entry_header (header_line_of e) = true.
Proof.
  intros l ls H e Hc. subst e.
  destruct (header_fields_of_group l ls) as [Et [Ec [Ez Ef]]].
  unfold header_line_of. rewrite Et, Ez, Ef. rewrite Ec in Hc |- *.
  exact (header_round_trip l empty_entry H Hc).
Qed.

Lemma header_fields_round_trip_witness :
  is_entry_header (header_line_of (parse_entry_lines adams_lines)) = true.
Proof.
  apply (header_fields_round_trip (txt "ADAMS (GAGE) - 68301 RHC-C")
           (tl adams_lines)).
  - vm_compute. reflexivity.
  - vm_compute. discriminate.
Defined.

(** C6 as stated fails: a header whose county is a single space is
    accepted, its county is extracted as the empty text, and the line
    written back from the fields, "A () - 12345 RHC-A", is rejected. *)
Lemma blank_county_breaks_round_trip :
  is_entry_header blank_county_header = true
  /\ header_line_of
       (parse_entry_lines [blank_county_header; txt "ADAMS PRIMARY CARE 283499"])
     = txt "A () - 12345 RHC-A"
  /\ is_entry_header
       (header_line_of
          (parse_entry_lines
             [blank_county_header; txt "ADAMS PRIMARY CARE 283499"]))
     = false.
Proof. repeat split; vm_compute; reflexivity. Qed.

(** C7, as the code has it: below the seven lines of boilerplate, a line
    whose trimmed text starts with "Total Facilities:" changes nothing: the
    groups and the entries of the page are those of the page with these
    lines taken out below the boilerplate, no group holds such a line, and
    no field that holds a line of an entry starts with that text. *)
Theorem total_lines_skipped :
  (forall lines, segment_page lines = segment_page (without_totals lines))
  /\ (forall lines, page_groups lines = page_groups (without_totals lines))
  /\ (forall lines g l,
         In g (page_groups lines) -> In l g -> is_total_line l = false)
  /\ (forall lines e f,
         In e (segment_page lines) ->
         In f [Facility_name; Address; Licensee; Administrator] ->
         startswith (get f e) (txt "Total Facilities:") = false).
Proof.
  split; [|split; [|split]].
  - intros lines. now rewrite !segment_page_groups, <- page_groups_without_totals.
  - exact page_groups_without_totals.
  - intros lines g l Hg Hl.
    assert (H := page_groups_headed lines). rewrite Forall_forall in H.
    destruct (H g Hg) as [_ F]. rewrite Forall_forall in F. now apply F.
  - intros lines e f He Hf. rewrite segment_page_groups, filter_In in He.
    destruct He as [He _]. apply in_map_iff in He as [g [<- Hg]].
    assert (H := page_groups_headed lines). rewrite Forall_forall in H.
    apply line_fields_not_total; [exact (proj2 (H g Hg))|exact Hf].
Qed.

Lemma total_lines_skipped_witness :
  is_total_line (txt "(308) 962-8495 FAX:(308) 962-7916") = false.
Proof.
  apply (proj1 (proj2 (proj2 total_lines_skipped))
           two_entry_page arapahoe_lines).
  - vm_compute. right. left. reflexivity.
  - vm_compute. do 3 right. left. reflexivity.
Defined.

(** C7 as stated fails: a total line among the first seven lines is part
    of the boilerplate that is dropped unread, so taking it out of the page
    moves a line of the entry into the boilerplate and the entry is lost. *)
Lemma total_line_in_boilerplate :
  segment_page shifted_page = [parse_entry_lines adams_lines]
  /\ segment_page (filter (fun l => negb (is_total_line l)) shifted_page) = [].
Proof. split; vm_compute; reflexivity. Qed.

(** C9: the pattern of the classifier is the pattern of the extractor
    without its groups; an entry built from a group whose first line the
    classifier accepts has a non-empty town, a ZIP code of exactly five
    digits and a type "RHC-" with one uppercase letter; every group the
    page scan closes starts with such a line, and so every entry of a page
    has these fields. *)
Theorem header_fields_populated :
  erase header_groups_re = header_re
  /\ (forall l ls,
         is_entry_header l = true ->
         header_populated (parse_entry_lines (l :: ls)))
  /\ (forall lines g,
         In g (page_groups lines) ->
         exists l ls, g = l :: ls /\ is_entry_header l = true)
  /\ (forall lines e, In e (segment_page lines) -> header_populated e).
Proof.
  assert (P : forall l ls,
             is_entry_header l = true ->
             header_populated (parse_entry_lines (l :: ls))).
  { intros l ls H. unfold header_populated.
    destruct (header_fields_of_group l ls) as [-> [_ [-> ->]]].
    exact (header_view_populated l empty_entry H). }
  assert (G : forall lines g,
             In g (page_groups lines) ->
             exists l ls, g = l :: ls /\ is_entry_header l = true).
  { intros lines g Hg. assert (H := page_groups_headed lines).
    rewrite Forall_forall in H. exact (proj1 (H g Hg)). }
  split; [reflexivity|]. split; [exact P|]. split; [exact G|].
  intros lines e He. rewrite segment_page_groups, filter_In in He.
  destruct He as [He _]. apply in_map_iff in He as [g [<- Hg]].
  destruct (G lines g Hg) as [l [ls [-> H]]]. now apply P.
Qed.

Lemma header_fields_populated_witness :
  header_populated (parse_entry_lines arapahoe_lines).
Proof.
  apply (proj2 (proj2 (proj2 header_fields_populated)) two_entry_page).
  vm_compute. right. left. reflexivity.
Defined.

(** C10: a page of seven lines or fewer adds no entry: dropping the first
    seven lines leaves nothing to scan, and the entries read so far are
    returned as they are. *)
Theorem short_page_adds_nothing :
  forall lines,
    length lines <= 7 ->
    skipn 7 lines = []
    /\ segment_page lines = []
    /\ (forall entries, parse_page entries lines = entries)
    /\ (forall first text,
           lines = split newline text ->
           parse_pdf [first; Some text] = []).
Proof.
  intros lines H. split; [now apply skipn_all2|].
  split; [now apply short_page|]. split; [intros; now apply short_page|].
  intros first text E. unfold parse_pdf. cbn [skipn fold_left].
  destruct text; [reflexivity|]. rewrite <- E. now apply short_page.
Qed.

Lemma short_page_adds_nothing_witness :
  segment_page (repeat (txt "column label") 7) = []
  /\ segment_page [txt "ADAMS (GAGE) - 68301 RHC-C";
                   txt "ADAMS PRIMARY CARE 283499"] = [].
Proof.
  split.
  - apply (short_page_adds_nothing (repeat (txt "column label") 7)).
    simpl. lia.
  - apply (short_page_adds_nothing
             [txt "ADAMS (GAGE) - 68301 RHC-C";
              txt "ADAMS PRIMARY CARE 283499"]).
    simpl. lia.
Defined.

(** * Further properties *)

(** ** Trimmed text *)

Lemma strip_nil : strip [] = [].
Proof. reflexivity. Qed.

(** Trimming twice is trimming once. *)
Lemma strip_idem (s : str) : strip (strip s) = strip s.
Proof.
  destruct (strip s) as [|c u] eqn:E; [reflexivity|].
  assert (Hc := strip_first s c u E).
  destruct (exists_last (l := c :: u)) as [v [d Ev]]; [discriminate|].
  rewrite Ev in E. assert (Hd := strip_last s v d E).
  now apply (strip_fixed c d u v).
Qed.

Lemma strip_visible (s : str) :
  forallb (fun c => negb (isspace c)) s = true -> strip s = s.
Proof.
  intros F. destruct s as [|c u]; [reflexivity|].
  destruct (exists_last (l := c :: u)) as [v [d Ev]]; [discriminate|].
  rewrite forallb_forall in F.
  apply (strip_fixed c d u v); [| |exact Ev].
  - apply negb_true_iff, F. now left.
  - apply negb_true_iff, F. rewrite Ev. apply in_or_app. right. now left.
Qed.

Lemma digits_visible (s : str) :
  forallb isdigit s = true -> forallb (fun c => negb (isspace c)) s = true.
Proof.
  rewrite !forallb_forall. intros F c Hc.
  apply negb_true_iff, digit_not_space, F, Hc.
Qed.

Lemma strip_digits (s : str) : forallb isdigit s = true -> strip s = s.
Proof. intros F. now apply strip_visible, digits_visible. Qed.

(** ** What each line can give *)

Lemma header_view_rejects (l : str) (e : entry) :
  is_entry_header l = false -> header_view l e = e.
Proof.
  intros H. unfold header_view.
  destruct (re_match header_groups_re (strip l)) as [m|] eqn:X;
    [|reflexivity].
  assert (A : is_entry_header l = true) by (apply header_match_iff; eauto).
  congruence.
Qed.

Lemma name_view_cases (l : str) :
  name_view l = (strip l, [])
  \/ exists n s d,
       strip l = n ++ s ++ d
       /\ many notnewline n /\ many isspace s /\ exactly 6 isdigit d
       /\ name_view l = (strip n, d).
Proof.
  unfold name_view.
  destruct (re_match name_re (strip l)) as [m|] eqn:X; [right|now left].
  apply hd_error_in, name_sound in X.
  destruct X as [n [s [d [tail [E [T [Hn [Hs [Hd [-> ->]]]]]]]]]].
  apply strip_tail in E; [|exact T]. exists n, s, d.
  split; [exact E|]. split; [exact Hn|]. split; [exact Hs|].
  split; [exact Hd|reflexivity].
Qed.

Lemma phone_view_cases (l : str) :
  phone_view l = []
  \/ exists a b c,
       phone_shape (strip l) a b c
       /\ phone_view l = paren_fmt a (local_number b c).
Proof.
  unfold phone_view.
  destruct (re_match phone_re (strip l)) as [m|] eqn:X; [right|now left].
  apply hd_error_in, phone_sound in X.
  destruct X as [a [b [c [S [-> ->]]]]]. exists a, b, c. now split.
Qed.

Lemma fax_view_cases (l : str) :
  fax_view l = []
  \/ exists pre a b c,
       fax_shape (strip l) pre a b c
       /\ fax_view l = paren_fmt a (local_number b c).
Proof.
  unfold fax_view, re_search.
  destruct (search_from fax_re 0 (strip l)) as [m|] eqn:X; [right|now left].
  apply search_from_some in X as [pre [suf [E [Hin _]]]].
  apply fax_sound in Hin as [a [b [c [S [-> ->]]]]].
  exists pre, a, b, c. split; [|reflexivity].
  rewrite E. now apply fax_shape_shift.
Qed.

Lemma canonical_of_phone (w a b c : str) :
  phone_shape w a b c -> canonical_number (paren_fmt a (local_number b c)).
Proof.
  intros [s [post [_ [Ha [_ [Hb Hc]]]]]]. exists a, b, c. repeat (split; [assumption|]). reflexivity.
Qed.

Lemma canonical_of_fax (w pre a b c : str) :
  fax_shape w pre a b c -> canonical_number (paren_fmt a (local_number b c)).
Proof.
  intros [s1 [lp [rp [s2 [post [_ [_ [_ [Ha [_ [_ [Hb Hc]]]]]]]]]]]].
  exists a, b, c. repeat (split; [assumption|]). reflexivity.
Qed.

Lemma canonical_length (s : str) : canonical_number s -> length s = 14.
Proof.
  intros [a [b [c [[La _] [[Lb _] [[Lc _] ->]]]]]].
  unfold paren_fmt, local_number.
  cbn [length]. rewrite length_app. cbn [length].
  rewrite length_app. cbn [length]. lia.
Qed.

Lemma canonical_trimmed (s : str) : canonical_number s -> strip s = s.
Proof.
  intros [a [b [c [_ [_ [[Lc Fc] ->]]]]]].
  destruct (exists_last (l := c)) as [v [d ->]];
    [intros ->; discriminate Lc|].
  rewrite forallb_app in Fc. apply andb_true_iff in Fc as [_ Fd].
  cbn [forallb] in Fd. rewrite andb_true_r in Fd.
  unfold paren_fmt, local_number.
  apply (strip_fixed "("%char d _
           ("("%char :: a ++ ")"%char :: " "%char :: b ++ "-"%char :: v)).
  - reflexivity.
  - now apply digit_not_space.
  - flatten. reflexivity.
Qed.

Lemma care_of_view_trimmed (ls : list str) :
  strip (care_of_view ls) = care_of_view ls.
Proof.
  induction ls as [|l ls IH]; [reflexivity|].
  rewrite care_of_view_cons.
  destruct (startswith (strip l) (txt "c/o:")); [apply strip_idem|exact IH].
Qed.

Lemma trimmed_at_trimmed (lines : list str) (i : nat) :
  strip (trimmed_at lines i) = trimmed_at lines i.
Proof.
  unfold trimmed_at. destruct (nth_error lines i); [apply strip_idem|].
  reflexivity.
Qed.

Lemma name_view_trimmed (l : str) :
  strip (fst (name_view l)) = fst (name_view l)
  /\ (snd (name_view l) = [] \/ exactly 6 isdigit (snd (name_view l))).
Proof.
  destruct (name_view_cases l) as [->|[n [s [d [_ [_ [_ [Hd ->]]]]]]]];
    cbn [fst snd]; (split; [apply strip_idem|]); [now left|now right].
Qed.

Lemma header_view_trimmed (l : str) :
  let h := header_view l empty_entry in
  strip (town h) = town h /\ strip (county h) = county h
  /\ strip (zip_code h) = zip_code h
  /\ strip (facility_type h) = facility_type h.
Proof.
  cbv zeta. destruct (is_entry_header l) eqn:H.
  - destruct (header_view_accepts l empty_entry H)
      as [t [c [z [x [c0 [t' [S [_ [_ [-> [-> [-> ->]]]]]]]]]]]].
    destruct S as [s1 [s2 [s3 [s4 [_ [_ [_ [_ [_ [_ [[_ Fz] [_ Hx]]]]]]]]]]]].
    repeat split; try apply strip_idem.
    + now apply strip_digits.
    + apply strip_visible. cbn [txt list_ascii_of_string app forallb].
      now rewrite (upper_not_space x Hx).
  - rewrite header_view_rejects by exact H. now repeat split.
Qed.

(** Every field of an entry is its own trimmed text. *)
Lemma fields_trimmed (lines : list str) (f : field) :
  strip (get f (parse_entry_lines lines)) = get f (parse_entry_lines lines).
Proof.
  destruct lines as [|l0 ls]; [now destruct f|].
  rewrite parse_entry_lines_fields.
  destruct (header_view_trimmed l0) as [Ht [Hc [Hz Hf]]].
  destruct f; cbn [get town county zip_code facility_type facility_name
                   provider_id address phone fax licensee administrator
                   care_of]; try assumption; try apply trimmed_at_trimmed.
  - unfold at_line. destruct (nth_error (l0 :: ls) 1); [|reflexivity].
    apply name_view_trimmed.
  - unfold at_line. destruct (nth_error (l0 :: ls) 1) as [l|]; [|reflexivity].
    destruct (name_view_trimmed l) as [_ [->|[_ F]]]; [reflexivity|].
    now apply strip_digits.
  - unfold at_line. destruct (nth_error (l0 :: ls) 3) as [l|]; [|reflexivity].
    destruct (phone_view_cases l) as [->|[a [b [c [S ->]]]]]; [reflexivity|].
    eapply canonical_trimmed, canonical_of_phone, S.
  - unfold at_line. destruct (nth_error (l0 :: ls) 3) as [l|]; [|reflexivity].
    destruct (fax_view_cases l) as [->|[pre [a [b [c [S ->]]]]]];
      [reflexivity|].
    eapply canonical_trimmed, canonical_of_fax, S.
  - apply care_of_view_trimmed.
Qed.

(** X1: no field of an entry starts or ends with whitespace: every field
    [parse_entry_lines] returns is its own trimmed text. *)
Theorem entry_fields_are_trimmed :
  forall lines f,
    strip (get f (parse_entry_lines lines)) = get f (parse_entry_lines lines).
Proof. exact fields_trimmed. Qed.

Lemma number_fields (lines : list str) (f : field) :
  In f [Phone; Fax] ->
  get f (parse_entry_lines lines) = []
  \/ (canonical_number (get f (parse_entry_lines lines))
      /\ length (get f (parse_entry_lines lines)) = 14).
Proof.
  intros Hf. destruct lines as [|l0 ls];
    [left; destruct Hf as [<-|[<-|[]]]; reflexivity|].
  rewrite parse_entry_lines_fields.
  destruct Hf as [<-|[<-|[]]]; cbn [get phone fax]; unfold at_line;
    destruct (nth_error (l0 :: ls) 3) as [l|]; try (now left).
  - destruct (phone_view_cases l) as [->|[a [b [c [S ->]]]]]; [now left|].
    right. assert (C := canonical_of_phone _ _ _ _ S).
    split; [exact C|now apply canonical_length].
  - destruct (fax_view_cases l) as [->|[pre [a [b [c [S ->]]]]]]; [now left|].
    right. assert (C := canonical_of_fax _ _ _ _ _ S).
    split; [exact C|now apply canonical_length].
Qed.

(** X2: whatever the lines are, [phone] and [fax] are each empty or a
    number in the form "(AAA) NNN-NNNN" with ten digits, fourteen
    characters long. *)
Theorem phone_fax_empty_or_canonical :
  forall lines f,
    In f [Phone; Fax] ->
    get f (parse_entry_lines lines) = []
    \/ (canonical_number (get f (parse_entry_lines lines))
        /\ length (get f (parse_entry_lines lines)) = 14).
Proof. exact number_fields. Qed.

Lemma phone_fax_empty_or_canonical_witness :
  get Phone (parse_entry_lines adams_lines) = []
  \/ (canonical_number (get Phone (parse_entry_lines adams_lines))
      /\ length (get Phone (parse_entry_lines adams_lines)) = 14).
Proof.
  apply (phone_fax_empty_or_canonical adams_lines Phone). now left.
Defined.

Lemma name_nonempty (l n s d : str) :
  strip l = n ++ s ++ d -> many notnewline n ->
  strip n <> [] /\ strip l <> [].
Proof.
  intros E [L _]. destruct n as [|c n]; [simpl in L; lia|].
  split; [|rewrite E; discriminate].
  simpl in E. apply strip_first in E.
  destruct (strip_visible_head c n E) as [v ->]. discriminate.
Qed.

Lemma name_fields (lines : list str) :
  let e := parse_entry_lines lines in
  (provider_id e = [] \/ exactly 6 isdigit (provider_id e))
  /\ (provider_id e <> [] -> facility_name e <> [])
  /\ (facility_name e = []
      <-> forall l, nth_error lines 1 = Some l -> strip l = []).
Proof.
  cbv zeta. destruct lines as [|l0 ls].
  - split; [now left|]. split; [intros H; now destruct H|].
    split; [intros _ l H; discriminate H|reflexivity].
  - rewrite parse_entry_lines_fields. cbn [provider_id facility_name].
    unfold at_line. destruct (nth_error (l0 :: ls) 1) as [l|] eqn:E.
    + destruct (name_view_cases l)
        as [->|[n [s [d [En [Hn [_ [Hd ->]]]]]]]]; cbn [fst snd].
      * split; [now left|]. split; [intros H; now destruct H|].
        split; [intros H l' El; congruence|intros H; now apply H].
      * destruct (name_nonempty l n s d En Hn) as [N1 N2].
        split; [now right|]. split; [intros _; exact N1|].
        split; [intros H; now destruct N1|].
        intros H. destruct N2. now apply H.
    + split; [now left|]. split; [intros H; now destruct H|].
      split; [intros _ l H; discriminate H|reflexivity].
Qed.

(** X3: [provider_id] is empty or exactly six digits; an entry with a
    [provider_id] has a [facility_name]; and [facility_name] is empty
    exactly when the line at index 1 is missing or blank. *)
Theorem provider_id_and_name :
  forall lines,
    let e := parse_entry_lines lines in
    (provider_id e = [] \/ exactly 6 isdigit (provider_id e))
    /\ (provider_id e <> [] -> facility_name e <> [])
    /\ (facility_name e = []
        <-> forall l, nth_error lines 1 = Some l -> strip l = []).
Proof. exact name_fields. Qed.

Lemma provider_id_and_name_witness :
  facility_name (parse_entry_lines adams_lines) <> [].
Proof.
  apply (proj1 (proj2 (provider_id_and_name adams_lines))).
  vm_compute. discriminate.
Defined.

Lemma header_fields_rejected (l : str) (ls : list str) :
  is_entry_header l = false ->
  let e := parse_entry_lines (l :: ls) in
  town e = [] /\ county e = [] /\ zip_code e = [] /\ facility_type e = [].
Proof.
  intros H. cbv zeta.
  destruct (header_fields_of_group l ls) as [-> [-> [-> ->]]].
  rewrite header_view_rejects by exact H. now repeat split.
Qed.

Lemma town_iff_header (lines : list str) :
  town (parse_entry_lines lines) <> []
  <-> exists l ls, lines = l :: ls /\ is_entry_header l = true.
Proof.
  destruct lines as [|l ls].
  - split; [intros H; now destruct H|intros [l [ls [E _]]]; discriminate E].
  - destruct (is_entry_header l) eqn:H.
    + split; [eauto|intros _].
      destruct (header_fields_of_group l ls) as [-> _].
      apply (header_view_populated l empty_entry H).
    + destruct (header_fields_rejected l ls H) as [-> _].
      split; [intros N; now destruct N|].
      intros [l' [ls' [E H']]]. injection E as <- <-. congruence.
Qed.

(** X4: the header fields are all or nothing: when the first line of a
    group is not accepted by [is_entry_header], [town], [county],
    [zip_code] and [facility_type] are all empty, and [town] is non-empty
    exactly when the group starts with an accepted header. *)
Theorem header_fields_all_or_nothing :
  (forall l ls,
      is_entry_header l = false ->
      let e := parse_entry_lines (l :: ls) in
      town e = [] /\ county e = [] /\ zip_code e = []
      /\ facility_type e = [])
  /\ (forall lines,
         town (parse_entry_lines lines) <> []
         <-> exists l ls, lines = l :: ls /\ is_entry_header l = true).
Proof. split; [exact header_fields_rejected|exact town_iff_header]. Qed.

Lemma header_fields_all_or_nothing_witness :
  town (parse_entry_lines (tl adams_lines)) = []
  /\ zip_code (parse_entry_lines (tl adams_lines)) = [].
Proof.
  destruct (proj1 header_fields_all_or_nothing
              (txt "ADAMS PRIMARY CARE 283499") (tl (tl adams_lines)))
    as [Ht [_ [Hz _]]]; [vm_compute; reflexivity|].
  split; [exact Ht|exact Hz].
Defined.

(** ** Trimming the lines beforehand *)

Lemma is_entry_header_strip (l : str) :
  is_entry_header (strip l) = is_entry_header l.
Proof. unfold is_entry_header. now rewrite strip_idem. Qed.

Lemma is_total_line_strip (l : str) :
  is_total_line (strip l) = is_total_line l.
Proof. unfold is_total_line. now rewrite strip_idem. Qed.

Lemma care_of_view_strip (ls : list str) :
  care_of_view (map strip ls) = care_of_view ls.
Proof.
  induction ls as [|l ls IH]; [reflexivity|].
  cbn [map]. rewrite !care_of_view_cons, strip_idem, IH. reflexivity.
Qed.

Lemma at_line_strip {A : Type} (lines : list str) (i : nat)
  (f : str -> A) (d : A) :
  (forall l, f (strip l) = f l) ->
  at_line (map strip lines) i f d = at_line lines i f d.
Proof.
  intros Hf. unfold at_line. rewrite nth_error_map.
  destruct (nth_error lines i); cbn [option_map]; [apply Hf|reflexivity].
Qed.

Lemma parse_entry_lines_strip (lines : list str) :
  parse_entry_lines (map strip lines) = parse_entry_lines lines.
Proof.
  destruct lines as [|l0 ls]; [reflexivity|].
  change (map strip (l0 :: ls)) with (strip l0 :: map strip ls).
  rewrite !parse_entry_lines_fields.
  change (strip l0 :: map strip ls) with (map strip (l0 :: ls)).
  assert (Hh : header_view (strip l0) empty_entry = header_view l0 empty_entry)
    by (unfold header_view; now rewrite strip_idem).
  assert (Hn : forall l, name_view (strip l) = name_view l)
    by (intros l; unfold name_view; now rewrite strip_idem).
  assert (Hp : forall l, phone_view (strip l) = phone_view l)
    by (intros l; unfold phone_view; now rewrite strip_idem).
  assert (Hx : forall l, fax_view (strip l) = fax_view l)
    by (intros l; unfold fax_view; now rewrite strip_idem).
  assert (Ht : forall i, trimmed_at (map strip (l0 :: ls)) i
                         = trimmed_at (l0 :: ls) i).
  { intros i. unfold trimmed_at. rewrite nth_error_map.
    destruct (nth_error (l0 :: ls) i); cbn [option_map];
      [apply strip_idem|reflexivity]. }
  rewrite Hh, !Ht, skipn_map, care_of_view_strip.
  rewrite !at_line_strip; [reflexivity|..]; intros l;
    now rewrite ?Hn, ?Hp, ?Hx.
Qed.

Lemma groups_strip (ls : list str) :
  forall closed current,
    fold_left group_line (map strip ls)
      (map (map strip) closed, map strip current)
    = let (closed', current') := fold_left group_line ls (closed, current) in
      (map (map strip) closed', map strip current').
Proof.
  induction ls as [|l ls IH]; intros closed current; [reflexivity|].
  cbn [map fold_left]. unfold group_line at 2 4.
  rewrite is_total_line_strip, is_entry_header_strip.
  destruct (is_total_line l); [apply IH|].
  destruct (is_entry_header l).
  - replace (close_group (map (map strip) closed) (map strip current))
      with (map (map strip) (close_group closed current))
      by (destruct current; [reflexivity|cbn [close_group]; now rewrite map_app]).
    apply (IH (close_group closed current) [l]).
  - destruct current as [|c cs]; [apply (IH closed [])|].
    cbn [map].
    change ((strip c :: map strip cs) ++ [strip l])
      with (map strip (c :: cs) ++ map strip [l]).
    rewrite <- map_app. apply (IH closed ((c :: cs) ++ [l])).
Qed.

Lemma page_groups_strip (lines : list str) :
  page_groups (map strip lines) = map (map strip) (page_groups lines).
Proof.
  unfold page_groups. rewrite skipn_map.
  assert (H := groups_strip (skipn 7 lines) [] []). cbn [map] in H.
  rewrite H.
  destruct (fold_left group_line (skipn 7 lines) ([], [])) as [closed cur].
  destruct cur; [reflexivity|cbn [close_group]; now rewrite map_app].
Qed.

Lemma segment_page_strip (lines : list str) :
  segment_page (map strip lines) = segment_page lines.
Proof.
  rewrite !segment_page_groups, page_groups_strip, map_map.
  f_equal. apply map_ext. exact parse_entry_lines_strip.
Qed.

(** X5: leading and trailing whitespace of the lines is immaterial to the
    extractor and the classifier: trimming every line beforehand gives the
    same entry, the same header verdict and the same total-line verdict. *)
Theorem trimming_lines_changes_no_entry :
  (forall lines, parse_entry_lines (map strip lines) = parse_entry_lines lines)
  /\ (forall l, is_entry_header (strip l) = is_entry_header l)
  /\ (forall l, is_total_line (strip l) = is_total_line l).
Proof.
  split; [exact parse_entry_lines_strip|].
  split; [exact is_entry_header_strip|exact is_total_line_strip].
Qed.

(** X6: the page scan keeps the lines of a group untrimmed and trims them
    when it reads them, so trimming every line of a page beforehand gives
    the same groups, trimmed, and the same entries. *)
Theorem trimming_lines_changes_no_page :
  (forall lines,
      page_groups (map strip lines) = map (map strip) (page_groups lines))
  /\ (forall lines, segment_page (map strip lines) = segment_page lines).
Proof. split; [exact page_groups_strip|exact segment_page_strip]. Qed.

(** ** Lines and groups of a page *)

Lemma total_not_header (l : str) :
  is_total_line l = true -> is_entry_header l = false.
Proof.
  intros T. destruct (is_entry_header l) eqn:H; [exfalso|reflexivity].
  apply is_entry_header_shape in H.
  destruct H as [t [c [z [x [s1 [s2 [s3 [s4 [E H]]]]]]]]].
  destruct H as [[Lt Ft] [[Ls Fs] _]].
  unfold is_total_line in T. rewrite E in T. unfold header_text in T.
  destruct t as [|c1 [|c2 t]]; [simpl in Lt; lia| |].
  - destruct s1 as [|d s1]; [simpl in Ls; lia|].
    cbn [app txt list_ascii_of_string startswith] in T.
    apply andb_true_iff in T as [_ T]. apply andb_true_iff in T as [T _].
    apply Ascii.eqb_eq in T. subst d. vm_compute in Fs. discriminate Fs.
  - cbn [app txt list_ascii_of_string startswith] in T.
    apply andb_true_iff in T as [_ T]. apply andb_true_iff in T as [T _].
    apply Ascii.eqb_eq in T. subst c2. cbn [forallb] in Ft.
    apply andb_true_iff in Ft as [_ Ft]. apply andb_true_iff in Ft as [Ft _].
    vm_compute in Ft. discriminate Ft.
Qed.

(** X7: a line whose trimmed text starts with "Total Facilities:" is never
    a header, so the order of the two tests in the page scan does not
    matter and no entry can start at a total line. *)
Theorem total_line_is_no_header :
  forall l, is_total_line l = true -> is_entry_header l = false.
Proof. exact total_not_header. Qed.

Lemma total_line_is_no_header_witness :
  is_entry_header (txt "Total Facilities: 127") = false.
Proof. apply total_line_is_no_header. vm_compute. reflexivity. Defined.

Lemma groups_keep_lines (ls : list str) :
  forall closed current,
    concat (let (closed', current') :=
              fold_left group_line ls (closed, current)
            in close_group closed' current')
    = concat closed
      ++ match current with
         | [] => from_first_header
                   (filter (fun l => negb (is_total_line l)) ls)
         | _ :: _ => current ++ filter (fun l => negb (is_total_line l)) ls
         end.
Proof.
  induction ls as [|l ls IH]; intros closed current.
  - cbn [fold_left filter from_first_header].
    destruct current; cbn [close_group].
    + now rewrite app_nil_r.
    + rewrite concat_app. cbn [concat]. now rewrite !app_nil_r.
  - cbn [fold_left filter]. unfold group_line at 2.
    destruct (is_total_line l) eqn:T; cbn [negb]; [apply IH|].
    cbn [from_first_header]. destruct (is_entry_header l) eqn:H.
    + rewrite IH. destruct current; cbn [close_group]; [reflexivity|].
      rewrite concat_app. cbn [concat].
      now rewrite app_nil_r, <- app_assoc.
    + destruct current as [|c cs]; [apply IH|].
      rewrite IH. cbn [app]. now rewrite <- app_assoc.
Qed.

Lemma page_groups_lines (lines : list str) :
  concat (page_groups lines) = from_first_header (data_lines lines).
Proof.
  unfold page_groups, data_lines.
  apply (groups_keep_lines (skipn 7 lines) [] []).
Qed.

(** X8: the groups of a page hold, in order and with nothing lost or
    added, the lines of the page from its first header line on, where the
    first seven lines and the total lines do not count. *)
Theorem groups_hold_the_lines_after_first_header :
  forall lines,
    concat (page_groups lines) = from_first_header (data_lines lines).
Proof. exact page_groups_lines. Qed.

Lemma groups_count (ls : list str) :
  forall closed current,
    length (let (closed', current') :=
              fold_left group_line ls (closed, current)
            in close_group closed' current')
    = length (close_group closed current)
      + length (filter is_entry_header
                  (filter (fun l => negb (is_total_line l)) ls)).
Proof.
  induction ls as [|l ls IH]; intros closed current.
  - cbn [fold_left filter length]. lia.
  - cbn [fold_left filter]. unfold group_line at 2.
    destruct (is_total_line l) eqn:T; cbn [negb]; [apply IH|].
    cbn [filter]. destruct (is_entry_header l) eqn:H.
    + rewrite IH. cbn [close_group length]. rewrite length_app.
      cbn [length]. lia.
    + destruct current as [|c cs]; [apply IH|].
      rewrite IH. cbn [app close_group]. now rewrite !length_app.
Qed.

Lemma filter_header_data (ls : list str) :
  filter is_entry_header (filter (fun l => negb (is_total_line l)) ls)
  = filter is_entry_header ls.
Proof.
  induction ls as [|l ls IH]; [reflexivity|]. cbn [filter].
  destruct (is_total_line l) eqn:T; cbn [negb].
  - now rewrite (total_not_header l T).
  - cbn [filter]. now rewrite IH.
Qed.

Lemma page_groups_count (lines : list str) :
  length (page_groups lines)
  = length (filter is_entry_header (skipn 7 lines)).
Proof.
  unfold page_groups.
  rewrite (groups_count (skipn 7 lines) [] []), filter_header_data.
  reflexivity.
Qed.

Lemma segment_page_count (lines : list str) :
  length (segment_page lines)
  <= length (filter is_entry_header (skipn 7 lines)).
Proof.
  rewrite segment_page_groups, <- page_groups_count.
  rewrite <- (length_map parse_entry_lines (page_groups lines)).
  apply filter_length_le.
Qed.

(** X9: a page has one group for each header line below its first seven
    lines, and so at most that many entries. *)
Theorem one_group_per_header_line :
  forall lines,
    length (page_groups lines)
    = length (filter is_entry_header (skipn 7 lines))
    /\ length (segment_page lines)
       <= length (filter is_entry_header (skipn 7 lines)).
Proof.
  intros lines. split; [apply page_groups_count|apply segment_page_count].
Qed.

Lemma group_body (body : list str) :
  Forall (fun l => is_entry_header l = false /\ is_total_line l = false)
    body ->
  forall closed c cs,
    fold_left group_line body (closed, c :: cs)
    = (closed, (c :: cs) ++ body).
Proof.
  induction 1 as [|l body [H T] _ IH]; intros closed c cs.
  - cbn [fold_left]. now rewrite app_nil_r.
  - cbn [fold_left]. unfold group_line at 2. rewrite T, H.
    change ((c :: cs) ++ [l]) with (c :: (cs ++ [l])).
    rewrite IH. cbn [app]. now rewrite <- app_assoc.
Qed.

Lemma group_scanned (g : list str) (closed : list (list str))
  (current : list str) :
  entry_group g ->
  fold_left group_line g (closed, current)
  = (close_group closed current, g).
Proof.
  intros [h [body [-> [H F]]]]. cbn [fold_left]. unfold group_line at 2.
  destruct (is_total_line h) eqn:T;
    [rewrite (total_not_header h T) in H; discriminate H|].
  rewrite H. now rewrite (group_body body F).
Qed.

Lemma groups_scanned (gs : list (list str)) :
  Forall entry_group gs ->
  forall closed current,
    (let (closed', current') :=
       fold_left group_line (concat gs) (closed, current)
     in close_group closed' current')
    = close_group closed current ++ gs.
Proof.
  induction 1 as [|g gs Hg _ IH]; intros closed current.
  - cbn [concat fold_left]. now rewrite app_nil_r.
  - cbn [concat]. rewrite fold_left_app, (group_scanned g _ _ Hg), IH.
    destruct Hg as [h [body [-> _]]]. cbn [close_group].
    now rewrite <- app_assoc.
Qed.

Lemma page_of_groups (boiler : list str) (gs : list (list str)) :
  length boiler = 7 -> Forall entry_group gs ->
  page_groups (boiler ++ concat gs) = gs.
Proof.
  intros L F. unfold page_groups.
  rewrite skipn_app, L, Nat.sub_diag, skipn_all2 by lia.
  cbn [skipn app]. apply (groups_scanned gs F [] []).
Qed.

(** X10: the scan undoes concatenation: a page made of seven lines of
    boilerplate followed by groups, each a header line and lines that are
    neither headers nor total lines, is cut back into exactly these groups,
    and its entries are their records with a [facility_name]. *)
Theorem page_of_groups_is_cut_back :
  forall boiler gs,
    length boiler = 7 -> Forall entry_group gs ->
    page_groups (boiler ++ concat gs) = gs
    /\ segment_page (boiler ++ concat gs)
       = filter valid (map parse_entry_lines gs).
Proof.
  intros boiler gs L F. rewrite segment_page_groups.
  now rewrite (page_of_groups boiler gs L F).
Qed.

Lemma page_of_groups_is_cut_back_witness :
  page_groups (repeat (txt "column label") 7
                 ++ concat [adams_lines; arapahoe_lines])
  = [adams_lines; arapahoe_lines].
Proof.
  apply (page_of_groups_is_cut_back (repeat (txt "column label") 7)
           [adams_lines; arapahoe_lines]).
  - reflexivity.
  - repeat constructor;
      [exists (txt "ADAMS (GAGE) - 68301 RHC-C"), (tl adams_lines)
      |exists (txt "ARAPAHOE (FURNAS) - 68922 RHC-C"), (tl arapahoe_lines)];
      (split; [reflexivity|]); (split; [vm_compute; reflexivity|]);
      repeat constructor; vm_compute; reflexivity.
Defined.

(** ** The document *)

Lemma parse_page_app (entries : list entry) (lines : list str) :
  parse_page entries lines = entries ++ segment_page lines.
Proof. now rewrite parse_page_groups, segment_page_groups. Qed.

Lemma parse_pdf_pages (pages : list (option str)) :
  forall entries,
    fold_left
      (fun entries page =>
         match page with
         | None | Some [] => entries
         | Some text => parse_page entries (split newline text)
         end)
      pages entries
    = entries ++ flat_map page_entries pages.
Proof.
  induction pages as [|p pages IH]; intros entries; cbn [fold_left flat_map].
  - now rewrite app_nil_r.
  - rewrite IH. destruct p as [[|c text]|]; cbn [page_entries app];
      try reflexivity.
    now rewrite parse_page_app, <- app_assoc.
Qed.

Lemma parse_pdf_flat (pages : list (option str)) :
  parse_pdf pages = flat_map page_entries (skipn 1 pages).
Proof. unfold parse_pdf. now rewrite parse_pdf_pages. Qed.

(** X11: the entries of a document are the entries of its pages, one page
    after the other in page order, where the first page and the pages
    without text give none; no page affects the entries of another. *)
Theorem parse_pdf_is_page_by_page :
  (forall pages, parse_pdf pages = flat_map page_entries (skipn 1 pages))
  /\ (forall first first' pages,
         parse_pdf (first :: pages) = parse_pdf (first' :: pages))
  /\ (forall first pages pages',
         parse_pdf (first :: pages ++ pages')
         = parse_pdf (first :: pages) ++ parse_pdf (first :: pages')).
Proof.
  split; [exact parse_pdf_flat|]. split.
  - intros. now rewrite !parse_pdf_flat.
  - intros. rewrite !parse_pdf_flat. cbn [skipn]. apply flat_map_app.
Qed.

Lemma segment_page_entry (lines : list str) (e : entry) :
  In e (segment_page lines) ->
  facility_name e <> [] /\ header_populated e.
Proof.
  intros He. rewrite segment_page_groups, filter_In in He.
  destruct He as [He V]. apply in_map_iff in He as [g [<- Hg]].
  split; [now apply nonempty_iff|].
  assert (H := page_groups_headed lines). rewrite Forall_forall in H.
  destruct (H g Hg) as [[l [ls [-> Hl]]] _].
  unfold header_populated.
  destruct (header_fields_of_group l ls) as [-> [_ [-> ->]]].
  exact (header_view_populated l empty_entry Hl).
Qed.

Lemma parse_pdf_entry (pages : list (option str)) (e : entry) :
  In e (parse_pdf pages) ->
  facility_name e <> [] /\ header_populated e.
Proof.
  rewrite parse_pdf_flat, in_flat_map. intros [p [_ He]].
  destruct p as [[|c text]|]; cbn [page_entries] in He; try destruct He.
  now apply (segment_page_entry (split newline (c :: text))).
Qed.

(** X12: every entry [parse_pdf] returns has a non-empty [facility_name],
    a non-empty [town], a [zip_code] of exactly five digits and a
    [facility_type] "RHC-" with one uppercase letter. *)
Theorem parse_pdf_entries_are_complete :
  forall pages e,
    In e (parse_pdf pages) ->
    facility_name e <> [] /\ header_populated e.
Proof. exact parse_pdf_entry. Qed.

Lemma parse_pdf_entries_are_complete_witness :
  facility_name (parse_entry_lines adams_lines) <> []
  /\ header_populated (parse_entry_lines adams_lines).
Proof.
  apply (parse_pdf_entries_are_complete
           [None; Some (join newline two_entry_page)]).
  vm_compute. left. reflexivity.
Defined.

(** ** The lines of a page *)

Lemma split_acc_length (sep : ascii) (s : str) :
  forall cur,
    length (split_acc sep cur s)
    = S (length (filter (fun c => Ascii.eqb c sep) s)).
Proof.
  induction s as [|c s IH]; intros cur; cbn [split_acc filter];
    [reflexivity|].
  destruct (Ascii.eqb c sep); cbn [length]; now rewrite IH.
Qed.

Lemma split_acc_join (sep : ascii) (s : str) :
  forall cur, join sep (split_acc sep cur s) = cur ++ s.
Proof.
  induction s as [|c s IH]; intros cur; cbn [split_acc].
  - cbn [join]. now rewrite app_nil_r.
  - destruct (Ascii.eqb c sep) eqn:E.
    + apply Ascii.eqb_eq in E as ->.
      assert (J : forall p ps,
                 ps <> [] -> join sep (p :: ps) = p ++ sep :: join sep ps)
        by (intros p [|q ps] N; [now destruct N|reflexivity]).
      rewrite J, IH; [reflexivity|]. intros N.
      assert (L := split_acc_length sep s []). rewrite N in L.
      discriminate L.
    + rewrite IH, <- app_assoc. reflexivity.
Qed.

Lemma split_acc_free (sep : ascii) (s : str) :
  forall cur l,
    forallb (fun c => negb (Ascii.eqb c sep)) cur = true ->
    In l (split_acc sep cur s) ->
    forallb (fun c => negb (Ascii.eqb c sep)) l = true.
Proof.
  induction s as [|c s IH]; intros cur l F H; cbn [split_acc] in H.
  - destruct H as [<-|[]]. exact F.
  - destruct (Ascii.eqb c sep) eqn:E.
    + destruct H as [<-|H]; [exact F|]. now apply (IH [] l).
    + apply (IH (cur ++ [c]) l); [|exact H].
      rewrite forallb_app, F. cbn [forallb]. now rewrite E.
Qed.

(** X13: the lines of a page, as [parse_pdf] cuts them, hold no line feed,
    are one more than the line feeds of the text, and joined with line
    feeds give the text back. *)
Theorem page_lines_of_text :
  forall text,
    (forall l, In l (split newline text) -> forallb notnewline l = true)
    /\ length (split newline text)
       = S (length (filter (fun c => Ascii.eqb c newline) text))
    /\ join newline (split newline text) = text.
Proof.
  intros text. unfold split. split; [|split].
  - intros l H. now apply (split_acc_free newline text [] l).
  - apply split_acc_length.
  - apply (split_acc_join newline text []).
Qed.

Lemma page_lines_of_text_witness :
  forallb notnewline (txt "ADAMS PRIMARY CARE 283499") = true.
Proof.
  apply (proj1 (page_lines_of_text (join newline adams_lines))).
  vm_compute. right. left. reflexivity.
Defined.

Lemma name_split_plain (l n s d : str) :
  forallb notnewline l = true ->
  strip l = n ++ s ++ d -> n <> [] ->
  many isspace s -> exactly 6 isdigit d ->
  name_view l = (strip n, d).
Proof.
  intros F E N Hs Hd. apply (name_view_match l n s d E); try assumption.
  split; [destruct n; [now destruct N|simpl; lia]|].
  apply forallb_strip in F. rewrite E, forallb_app in F.
  now apply andb_true_iff in F as [F _].
Qed.

(** X14: for a line without line feed, as every line of a page is, the
    name and the provider id are split as soon as the trimmed line ends in
    whitespace and exactly six digits after a non-empty name. *)
Theorem name_id_split_on_page_lines :
  forall lines l n s d,
    nth_error lines 1 = Some l ->
    forallb notnewline l = true ->
    strip l = n ++ s ++ d -> n <> [] ->
    many isspace s -> exactly 6 isdigit d ->
    facility_name (parse_entry_lines lines) = strip n
    /\ provider_id (parse_entry_lines lines) = d.
Proof.
  intros lines l n s d H F E N Hs Hd.
  destruct (fields_at_1 lines l H) as [-> ->].
  now rewrite (name_split_plain l n s d F E N Hs Hd).
Qed.

Lemma name_id_split_on_page_lines_witness :
  facility_name (parse_entry_lines arapahoe_lines)
  = strip (txt "ARAPAHOE MEDICAL CLINIC")
  /\ provider_id (parse_entry_lines arapahoe_lines) = txt "283976".
Proof.
  apply (name_id_split_on_page_lines arapahoe_lines
           (txt "ARAPAHOE MEDICAL CLINIC 283976")
           (txt "ARAPAHOE MEDICAL CLINIC") (txt " ") (txt "283976")).
  - reflexivity.
  - vm_compute. reflexivity.
  - vm_compute. reflexivity.
  - discriminate.
  - split; [vm_compute; lia|vm_compute; reflexivity].
  - split; vm_compute; reflexivity.
Defined.

(** ** Lines past the sixth *)

Lemma at_line_firstn {A : Type} (lines : list str) (n i : nat)
  (f : str -> A) (d : A) :
  i < n -> at_line (firstn n lines) i f d = at_line lines i f d.
Proof.
  intros H. unfold at_line. rewrite nth_error_firstn.
  apply Nat.ltb_lt in H. now rewrite H.
Qed.

Lemma trimmed_at_firstn (lines : list str) (n i : nat) :
  i < n -> trimmed_at (firstn n lines) i = trimmed_at lines i.
Proof.
  intros H. unfold trimmed_at. rewrite nth_error_firstn.
  apply Nat.ltb_lt in H. now rewrite H.
Qed.

Lemma first_six_lines (lines : list str) (f : field) :
  f <> Care_of ->
  get f (parse_entry_lines (firstn 6 lines)) = get f (parse_entry_lines lines).
Proof.
  intros N. destruct lines as [|l0 ls]; [reflexivity|].
  change (firstn 6 (l0 :: ls)) with (l0 :: firstn 5 ls).
  rewrite !parse_entry_lines_fields.
  change (l0 :: firstn 5 ls) with (firstn 6 (l0 :: ls)).
  destruct f; cbn [get town county zip_code facility_type facility_name
                   provider_id address phone fax licensee administrator];
    try reflexivity;
    try (apply at_line_firstn; lia); try (apply trimmed_at_firstn; lia).
  now destruct N.
Qed.

Lemma care_of_view_app (ls extra : list str) :
  Forall (fun l => startswith (strip l) (txt "c/o:") = false) extra ->
  care_of_view (ls ++ extra) = care_of_view ls.
Proof.
  intros F. induction ls as [|l ls IH]; cbn [app].
  - apply care_of_view_none. intros j l' E.
    rewrite Forall_forall in F. apply F. now apply nth_error_In in E.
  - rewrite !care_of_view_cons, IH. reflexivity.
Qed.

Lemma at_line_app {A : Type} (lines extra : list str) (i : nat)
  (f : str -> A) (d : A) :
  i < length lines -> at_line (lines ++ extra) i f d = at_line lines i f d.
Proof. intros H. unfold at_line. now rewrite nth_error_app1. Qed.

Lemma trimmed_at_app (lines extra : list str) (i : nat) :
  i < length lines -> trimmed_at (lines ++ extra) i = trimmed_at lines i.
Proof. intros H. unfold trimmed_at. now rewrite nth_error_app1. Qed.

Lemma trailing_lines (lines extra : list str) :
  6 <= length lines ->
  Forall (fun l => startswith (strip l) (txt "c/o:") = false) extra ->
  parse_entry_lines (lines ++ extra) = parse_entry_lines lines.
Proof.
  intros L F. destruct lines as [|l0 ls]; [simpl in L; lia|].
  change ((l0 :: ls) ++ extra) with (l0 :: (ls ++ extra)).
  rewrite !parse_entry_lines_fields.
  change (l0 :: (ls ++ extra)) with ((l0 :: ls) ++ extra).
  rewrite !at_line_app, !trimmed_at_app by lia.
  rewrite skipn_app. replace (6 - length (l0 :: ls)) with 0 by lia.
  cbn [skipn]. now rewrite care_of_view_app.
Qed.

(** X15: only the first six lines of a group and its "c/o:" lines matter:
    every field but [care_of] is that of the first six lines alone, and
    lines added after the sixth that do not start with "c/o:" leave the
    whole entry as it is. *)
Theorem lines_past_the_sixth :
  (forall lines f,
      f <> Care_of ->
      get f (parse_entry_lines (firstn 6 lines))
      = get f (parse_entry_lines lines))
  /\ (forall lines extra,
         6 <= length lines ->
         Forall (fun l => startswith (strip l) (txt "c/o:") = false) extra ->
         parse_entry_lines (lines ++ extra) = parse_entry_lines lines).
Proof. split; [exact first_six_lines|exact trailing_lines]. Qed.

Lemma lines_past_the_sixth_witness :
  get Address (parse_entry_lines (firstn 6 ainsworth_lines))
  = get Address (parse_entry_lines ainsworth_lines)
  /\ parse_entry_lines (adams_lines ++ [txt "Page 3 of 12"])
     = parse_entry_lines adams_lines.
Proof.
  split.
  - apply (proj1 lines_past_the_sixth). discriminate.
  - apply (proj2 lines_past_the_sixth).
    + simpl. lia.
    + repeat constructor.
Defined.

(** ** Rows of the CSV file *)

Lemma csv_row_cells (today : str) (e : entry) :
  csv_row today e =
  Some [town e; county e; zip_code e; facility_type e; facility_name e;
        provider_id e; address e; phone e; fax e; licensee e;
        administrator e; care_of e; today].
Proof. reflexivity. Qed.

Lemma csv_rows_cells (today : str) (entries : list entry) :
  csv_rows today entries =
  Some (map (fun e =>
               [town e; county e; zip_code e; facility_type e;
                facility_name e; provider_id e; address e; phone e; fax e;
                licensee e; administrator e; care_of e; today])
          entries).
Proof.
  induction entries as [|e es IH]; [reflexivity|].
  cbn [csv_rows map]. now rewrite csv_row_cells, IH.
Qed.

(** X16: writing never fails on a missing or unknown column: for every list
    of entries [save_to_csv] has one row per entry, in order, each of
    thirteen cells, as many as the column names; the last cell is the date,
    and the first twelve give the entry back. *)
Theorem csv_rows_match_entries :
  forall today entries,
    exists rows,
      csv_rows today entries = Some rows
      /\ length rows = length entries
      /\ map entry_of_row rows = entries
      /\ Forall (fun r => length r = length fieldnames
                          /\ nth 12 r [] = today) rows.
Proof.
  intros today entries. eexists. split; [apply csv_rows_cells|].
  split; [apply length_map|]. split.
  - rewrite map_map. rewrite <- (map_id entries) at 2.
    apply map_ext. now intros [].
  - apply Forall_forall. intros r Hr.
    apply in_map_iff in Hr as [e [<- _]]. now split.
Qed.

(** ** The alphabet of a header *)

Lemma forallb_weaken (p q : ascii -> bool) (u : str) :
  (forall c, p c = true -> q c = true) ->
  forallb p u = true -> forallb q u = true.
Proof.
  intros W. rewrite !forallb_forall. intros F c Hc. apply W, F, Hc.
Qed.

Lemma header_chars (l : str) :
  is_entry_header l = true ->
  forallb header_char (strip l) = true /\ 19 <= length (strip l).
Proof.
  intros H. apply is_entry_header_shape in H.
  destruct H as [t [c [z [x [s1 [s2 [s3 [s4 [E H]]]]]]]]].
  destruct H as [[Lt Ft] [[L1 F1] [[Lc Fc] [[L2 F2] [[L3 F3]
                   [[Lz Fz] [[L4 F4] Hx]]]]]]].
  assert (Wt : forall a, town_char a = true -> header_char a = true).
  { intros a. unfold town_char, header_char.
    destruct (isupper a), (isspace a), (Ascii.eqb a "'"%char);
      try discriminate; intros _; rewrite ?orb_true_r; reflexivity. }
  assert (Ws : forall a, isspace a = true -> header_char a = true).
  { intros a Ha. unfold header_char. rewrite Ha.
    rewrite ?orb_true_r. reflexivity. }
  assert (Wc : forall a, county_char a = true -> header_char a = true).
  { intros a. unfold county_char, header_char.
    destruct (isupper a), (isspace a); try discriminate; reflexivity. }
  assert (Wd : forall a, isdigit a = true -> header_char a = true).
  { intros a Ha. unfold header_char. rewrite Ha.
    rewrite ?orb_true_r. reflexivity. }
  assert (Wu : header_char x = true)
    by (unfold header_char; now rewrite Hx).
  rewrite E. unfold header_text. cbn [txt list_ascii_of_string]. split.
  - repeat (rewrite forallb_app || cbn [forallb app]).
    rewrite (forallb_weaken _ _ t Wt Ft), (forallb_weaken _ _ s1 Ws F1),
      (forallb_weaken _ _ c Wc Fc), (forallb_weaken _ _ s2 Ws F2),
      (forallb_weaken _ _ s3 Ws F3), (forallb_weaken _ _ z Wd Fz),
      (forallb_weaken _ _ s4 Ws F4), Wu.
    reflexivity.
  - repeat (rewrite length_app || cbn [length app]). lia.
Qed.

(** X17: a line the classifier accepts is, once trimmed, at least nineteen
    characters long and made only of uppercase letters, whitespace, digits,
    apostrophes, parentheses and hyphens; a line with any other character,
    such as a lowercase letter or a comma, is never a header. *)
Theorem header_alphabet :
  (forall l,
      is_entry_header l = true ->
      forallb header_char (strip l) = true /\ 19 <= length (strip l))
  /\ (forall l c,
         In c (strip l) -> header_char c = false ->
         is_entry_header l = false).
Proof.
  split; [exact header_chars|].
  intros l c Hc Hn. destruct (is_entry_header l) eqn:H; [|reflexivity].
  destruct (header_chars l H) as [F _]. rewrite forallb_forall in F.
  rewrite (F c Hc) in Hn. discriminate Hn.
Qed.

Lemma header_alphabet_witness :
  is_entry_header (txt "MARY KENT, ADMINISTRATOR") = false.
Proof.
  apply (proj2 header_alphabet _ ","%char).
  - vm_compute. do 9 right. left. reflexivity.
  - reflexivity.
Defined.
